(** * SalesforceCliConnector: a shallow embedding and its properties

  The development follows [src/SalesforceCliConnector.js].

  - JavaScript values are the tree-shaped data the connector handles
    (what [JSON.parse] produces, plus [undefined]); a number is a double,
    held exactly: an integer, a fraction over a power of two, an infinity
    or NaN.  A string is held as the bytes of its UTF-8 encoding (three
    bytes for a lone surrogate).
  - A promise is modelled by the way it settles: resolved, rejected, or
    never settled.
  - [pino] logging is a list of emitted log lines, returned next to the
    result of every operation.
  - Everything the connector calls but does not define ([JSON.parse],
    [path.resolve], [child_process.spawn], [fs-extra], [jsforce]) is an
    interface,
    class [Host]; the operations are written once, over any host.  A
    reference host, with an executable JSON reader and an in-memory file
    tree, is given further down and is what concrete runs evaluate on. *)

From Stdlib Require Import ZArith List String Ascii Bool Lia.
From Stdlib Require Import DecimalString DecimalFacts DecimalPos DecimalZ.
From stdpp Require Import base option strings gmap list.

Local Open Scope Z_scope.

(** ** Values

    An object is the list of its own properties, in the order they were
    added; an array is the list of its elements.  A number that is an
    integer is [JNum n]; any other number is [JReal]: a fraction [m / 2^e]
    with [m] odd, an infinity, or NaN. *)

Inductive NonInteger : Type :=
| Fraction (m : Z) (e : positive)
| Infinity (negative : bool)
| NaN.

#[warnings="-register-all"] Inductive JValue : Type :=
| JUndefined
| JNull
| JBool (b : bool)
| JNum (n : Z)
| JStr (s : string)
| JArr (items : list JValue)
| JObj (props : list (string * JValue))
| JReal (x : NonInteger).

(** Own properties of an object literal, by key. *)
Fixpoint assoc (k : string) (props : list (string * JValue)) : option JValue :=
  match props with
  | [] => None
  | (k', v) :: rest => if String.eqb k k' then Some v else assoc k rest
  end.

(** A native [Error] (a [TypeError], a [SyntaxError], a system error):
  the two fields the connector reads. *)
Module Error.
Record t : Type := mk { message : string; stack : string }.
End Error.

(** What an expression evaluates to: a value, or a thrown native error. *)
Inductive Completion (A : Type) : Type :=
| Return (a : A)
| Throw (e : Error.t).
Arguments Return {A} a.
Arguments Throw {A} e.

Definition nl : string := String (ascii_of_nat 10) EmptyString.
Definition dquote : ascii := ascii_of_nat 34.

Definition show_nullish (v : JValue) : string :=
  match v with JNull => "null" | _ => "undefined" end.

(** The [TypeError] of reading property [k] of [undefined] or [null]. *)
Definition TypeError_read (v : JValue) (k : string) : Error.t :=
  let msg := "Cannot read property '" +:+ k +:+ "' of " +:+ show_nullish v in
  Error.mk msg ("TypeError: " +:+ msg).

(** [v.k], for the keys the connector reads ([status], [result],
  [message], [stack], [instanceUrl], [accessToken]): none of them is a
  property of a primitive's or an array's prototype. *)
Definition get_prop (v : JValue) (k : string) : Completion JValue :=
  match v with
  | JUndefined | JNull => Throw (TypeError_read v k)
  | JObj props => Return (default JUndefined (assoc k props))
  | _ => Return JUndefined
  end.

(** ** Doubles

    A positive rational is [num / den].  [nearest] is the rounding every
    conversion to a number goes through: to the nearest double, a tie to
    the even mantissa; it gives the mantissa [q] and the exponent [u] of
    the double [q * 2^u], and nothing past the largest double. *)

Definition scale (num den u : Z) : Z * Z :=
  if 0 <=? u then (num, den * 2 ^ u) else (num * 2 ^ (- u), den).

(** The [b] with [2^b <= num / den < 2^(b+1)]. *)
Definition floor_log2 (num den : Z) : Z :=
  let b := Z.log2 num - Z.log2 den in
  let (n, d) := scale num den b in
  if d <=? n then b else b - 1.

Definition nearest (num den : Z) : option (Z * Z) :=
  let b := floor_log2 num den in
  if 1024 <=? b then None
  else
    let u := Z.max (b - 52) (-1074) in
    let (n, d) := scale num den u in
    let q := n / d in
    let r := n mod d in
    let q' := if (d <? 2 * r) || ((d =? 2 * r) && Z.odd q) then q + 1 else q in
    if (q' =? 2 ^ 53) && (u =? 971) then None else Some (q', u).

Definition same_double (a b : option (Z * Z)) : bool :=
  match a, b with
  | Some (q1, u1), Some (q2, u2) =>
      let u := Z.min u1 u2 in
      q1 * 2 ^ (u1 - u) =? q2 * 2 ^ (u2 - u)
  | None, None => true
  | _, _ => false
  end.

(** ** Number::toString

    The digits [s], their count [k] and the place [n] of the decimal point
    are those of ECMAScript: [k] is the least for which [s * 10^(n-k)]
    rounds to the number, and of the candidates with [k] digits the
    nearest is taken, the even one at a tie. *)

(** [num / den >= 10^p] *)
Definition reaches (num den p : Z) : bool :=
  if 0 <=? p then den * 10 ^ p <=? num else den <=? num * 10 ^ (- p).

(** The [n] with [10^(n-1) <= num / den < 10^n]. *)
Definition decimal_point (num den : Z) : Z :=
  let est := floor_log2 num den * 30103 / 100000 in
  if reaches num den (est + 2) then est + 3
  else if reaches num den (est + 1) then est + 2
  else if reaches num den est then est + 1
  else if reaches num den (est - 1) then est
  else est - 1.

(** [s * 10^e] rounds to [num / den]. *)
Definition denotes (num den s e : Z) : bool :=
  let (cn, cd) := if 0 <=? e then (s * 10 ^ e, 1) else (s, 10 ^ (- e)) in
  same_double (nearest cn cd) (nearest num den).

Definition carry (hi k n : Z) : Z * Z * Z :=
  if hi =? 10 ^ k then (10 ^ (k - 1), k, n + 1) else (hi, k, n).

Fixpoint shortest (fuel : nat) (k : Z) (num den n : Z) : Z * Z * Z :=
  let (tn, td) :=
    if 0 <=? n - k then (num, den * 10 ^ (n - k))
    else (num * 10 ^ (k - n), den) in
  let lo := tn / td in
  let r := tn mod td in
  match fuel with
  | O => (lo, k, n)
  | S fuel' =>
      let ok_lo := denotes num den lo (n - k) in
      let ok_hi := denotes num den (lo + 1) (n - k) in
      if ok_lo && ok_hi then
        if (2 * r <? td) || ((2 * r =? td) && Z.even lo) then (lo, k, n)
        else carry (lo + 1) k n
      else if ok_lo then (lo, k, n)
      else if ok_hi then carry (lo + 1) k n
      else shortest fuel' (k + 1) num den n
  end.

Fixpoint zeros (n : nat) : string :=
  match n with
  | O => EmptyString
  | S n' => String "0" (zeros n')
  end.

Definition digits_of (s : Z) : string :=
  NilEmpty.string_of_uint (N.to_uint (Z.to_N s)).

Definition format_number (s k n : Z) : string :=
  let ds := digits_of s in
  if (k <=? n) && (n <=? 21) then ds +:+ zeros (Z.to_nat (n - k))
  else if (0 <? n) && (n <=? 21) then
    substring 0 (Z.to_nat n) ds +:+ "."
    +:+ substring (Z.to_nat n) (Z.to_nat (k - n)) ds
  else if (-6 <? n) && (n <=? 0) then "0." +:+ zeros (Z.to_nat (- n)) +:+ ds
  else
    let e := n - 1 in
    let exponent := (if e <? 0 then "-" else "+") +:+ digits_of (Z.abs e) in
    if k =? 1 then ds +:+ "e" +:+ exponent
    else
      substring 0 1 ds +:+ "." +:+ substring 1 (Z.to_nat (k - 1)) ds
      +:+ "e" +:+ exponent.

Definition show_positive (num den : Z) : string :=
  let '(s, k, n) := shortest 17 1 num den (decimal_point num den) in
  format_number s k n.

(** The decimal digits of an integer, behind a minus sign if it is
    negative. *)
Definition show_number (n : Z) : string :=
  NilEmpty.string_of_int (Z.to_int n).

(** [Number::toString] of an integer: up to [2^53] every digit is
    significant, and the digits are those of the integer. *)
Definition Number_toString (n : Z) : string :=
  if Z.abs n <=? 2 ^ 53 then show_number n
  else (if n <? 0 then "-" else "") +:+ show_positive (Z.abs n) 1.

Definition show_fraction (m : Z) (e : positive) : string :=
  (if m <? 0 then "-" else "") +:+ show_positive (Z.abs m) (2 ^ Zpos e).

(** ** The order of own properties

    [OrdinaryOwnPropertyKeys]: the keys that are array indices come first,
    in ascending order, then the other keys in the order they were added.
    A key is listed once. *)

Definition digit_of (c : ascii) : option (Decimal.uint -> Decimal.uint) :=
  match nat_of_ascii c with
  | 48%nat => Some Decimal.D0
  | 49%nat => Some Decimal.D1
  | 50%nat => Some Decimal.D2
  | 51%nat => Some Decimal.D3
  | 52%nat => Some Decimal.D4
  | 53%nat => Some Decimal.D5
  | 54%nat => Some Decimal.D6
  | 55%nat => Some Decimal.D7
  | 56%nat => Some Decimal.D8
  | 57%nat => Some Decimal.D9
  | _ => None
  end.

(** The longest run of digits at the head of the text. *)
Fixpoint read_digits (s : string) : Decimal.uint * string :=
  match s with
  | String c rest =>
      match digit_of c with
      | Some d => let (ds, rest') := read_digits rest in (d ds, rest')
      | None => (Decimal.Nil, s)
      end
  | EmptyString => (Decimal.Nil, EmptyString)
  end.

(** An array index: the canonical decimal text of an integer below
    [2^32 - 1]. *)
Definition array_index (k : string) : option Z :=
  match read_digits k with
  | (Decimal.Nil, _) => None
  | (ds, EmptyString) =>
      if Decimal.uint_beq (Decimal.unorm ds) ds && (Z.of_uint ds <=? 4294967294)
      then Some (Z.of_uint ds) else None
  | (_, String _ _) => None
  end.

Definition precedes (k k' : string) : bool :=
  match array_index k, array_index k' with
  | Some i, Some i' => i <? i'
  | Some _, None => true
  | None, _ => false
  end.

Fixpoint add_entry {A : Type} (kv : string * A) (entries : list (string * A))
    : list (string * A) :=
  match entries with
  | [] => [kv]
  | kv' :: rest =>
      if precedes (fst kv) (fst kv') then kv :: entries
      else kv' :: add_entry kv rest
  end.

Definition own_entries {A : Type} (props : list (string * A))
    : list (string * A) :=
  fold_left
    (fun entries kv =>
       if existsb (String.eqb (fst kv)) (map fst entries) then entries
       else add_entry kv entries)
    props [].

(** ** JSON.stringify(value, null, 2)

    ECMAScript's [SerializeJSONProperty] with a gap of two spaces, on the
    values above. *)

Definition backslash : ascii := ascii_of_nat 92.
Definition gap : string := "  ".

Definition hex_digit (n : nat) : ascii :=
  nth n (list_ascii_of_string "0123456789abcdef") "0"%char.

(** One code unit of [QuoteJSONString]. *)
Definition escape_char (c : ascii) : string :=
  let n := nat_of_ascii c in
  if Nat.eqb n 8 then String backslash "b"
  else if Nat.eqb n 9 then String backslash "t"
  else if Nat.eqb n 10 then String backslash "n"
  else if Nat.eqb n 12 then String backslash "f"
  else if Nat.eqb n 13 then String backslash "r"
  else if Nat.eqb n 34 then String backslash (String dquote "")
  else if Nat.eqb n 92 then String backslash (String backslash "")
  else if Nat.ltb n 32 then
    String backslash
      ("u00" +:+ String (hex_digit (n / 16)) (String (hex_digit (n mod 16)) ""))
  else String c "".

(** The three bytes that hold a lone surrogate: its code unit. *)
Definition surrogate (a b c : ascii) : option Z :=
  let y := Z.of_nat (nat_of_ascii b) in
  let z := Z.of_nat (nat_of_ascii c) in
  if Nat.eqb (nat_of_ascii a) 237
     && (160 <=? y) && (y <=? 191) && (128 <=? z) && (z <=? 191)
  then Some (53248 + (y - 128) * 64 + (z - 128)) else None.

Definition hex4 (u : Z) : string :=
  String (hex_digit (Z.to_nat (u / 4096)))
    (String (hex_digit (Z.to_nat (u / 256 mod 16)))
       (String (hex_digit (Z.to_nat (u / 16 mod 16)))
          (String (hex_digit (Z.to_nat (u mod 16))) ""))).

(** The characters of [QuoteJSONString]: a lone surrogate is written as
    its [\u] escape, every other character by [escape_char]. *)
Fixpoint escape (s : string) : string :=
  match s with
  | EmptyString => EmptyString
  | String a rest =>
      match rest with
      | String b (String c rest') =>
          match surrogate a b c with
          | Some u => String backslash (String "u" (hex4 u)) +:+ escape rest'
          | None => escape_char a +:+ escape rest
          end
      | _ => escape_char a +:+ escape rest
      end
  end.

Definition QuoteJSONString (s : string) : string :=
  String dquote (escape s +:+ String dquote "").

(** The elements of a non-empty array or object, each followed by its
    separator, the last one by the closing line. *)
Fixpoint join_partial (sep closing : string) (partial : list string) : string :=
  match partial with
  | [] => closing
  | [x] => x +:+ closing
  | x :: rest => x +:+ sep +:+ join_partial sep closing rest
  end.

Definition wrap (opening closing stepback : string) (partial : list string)
    : string :=
  match partial with
  | [] => opening +:+ closing
  | _ =>
      let indent := stepback +:+ gap in
      opening +:+ nl +:+ indent
      +:+ join_partial ("," +:+ nl +:+ indent) (nl +:+ stepback +:+ closing) partial
  end.

(** One member of an object: nothing for a value that has no text. *)
Definition member_line (member : string * option string) : option string :=
  match snd member with
  | Some strP => Some (QuoteJSONString (fst member) +:+ ": " +:+ strP)
  | None => None
  end.

Fixpoint SerializeJSONProperty (stepback : string) (value : JValue)
    : option string :=
  match value with
  | JUndefined => None
  | JNull => Some "null"
  | JBool true => Some "true"
  | JBool false => Some "false"
  | JNum n => Some (Number_toString n)
  | JReal (Fraction m e) => Some (show_fraction m e)
  | JReal _ => Some "null"
  | JStr s => Some (QuoteJSONString s)
  | JArr items =>
      Some (wrap "[" "]" stepback
        (map (fun x => default "null" (SerializeJSONProperty (stepback +:+ gap) x))
           items))
  | JObj props =>
      Some (wrap "{" "}" stepback
        (omap member_line
           (own_entries
              (map (fun kv : string * JValue =>
                      (fst kv, SerializeJSONProperty (stepback +:+ gap) (snd kv)))
                 props))))
  end.

(** [JSON.stringify(value, null, 2)]: a string, or [undefined]. *)
Definition JSON_stringify (value : JValue) : JValue :=
  match SerializeJSONProperty "" value with
  | Some text => JStr text
  | None => JUndefined
  end.

(** Values whose JSON text is read back as the value itself: no
    [undefined] inside, numbers within the safe integers, strings without
    a lone surrogate, and in every object distinct keys in the order in
    which an object lists them. *)
Definition MAX_SAFE_INTEGER : Z := 9007199254740991.





(** ** Logging *)

Inductive LogLevel : Type := LevelError | LevelInfo.

Record LogLine : Type :=
  mkLog { level : LogLevel; format : string; args : list JValue }.

Definition logger_error (fmt : string) (a : list JValue) : LogLine :=
  mkLog LevelError fmt a.
Definition logger_info (fmt : string) (a : list JValue) : LogLine :=
  mkLog LevelInfo fmt a.

Definition ERROR_LEVEL_NONE : Z := -1.
Definition ERROR_LEVEL_BASIC : Z := 0.
Definition ERROR_LEVEL_DETAIL : Z := 1.

(** ** class DeveloperError *)

Module DeveloperError.

Record t : Type :=
  mk { message : JValue; detailMessage : JValue; stack : JValue }.

(** [log(traceLevel)]: the lines handed to [logger.error]. *)
Definition log (this : t) (traceLevel : Z) : list LogLine :=
  if ERROR_LEVEL_NONE <? traceLevel then
    if traceLevel =? ERROR_LEVEL_BASIC then
      [logger_error "Error occurred:%s" [message this]]
    else if ERROR_LEVEL_BASIC <? traceLevel then
      [logger_error ("Error occurred:%s " +:+ nl +:+ " %s " +:+ nl +:+ " %o")
         [message this; detailMessage this; stack this]]
    else []
  else [].

End DeveloperError.

(** What a [catch] clause or a rejection handler can receive here: an
  instance of [DeveloperError], or a native error. *)
Inductive Thrown : Type :=
| ThrownDeveloperError (d : DeveloperError.t)
| ThrownError (e : Error.t).

(** [static importError(err)] *)
Definition importError (err : Thrown) : DeveloperError.t :=
  match err with
  | ThrownDeveloperError d => d
  | ThrownError e =>
      DeveloperError.mk (JStr (Error.message e)) (JStr "unhandled exception")
        (JStr (Error.stack e))
  end.

(** ** Promises *)

Inductive Settled (A : Type) : Type :=
| Resolved (a : A)
| Rejected (e : Thrown)
| Pending.
Arguments Resolved {A} a.
Arguments Rejected {A} e.
Arguments Pending {A}.

(** ** The spawned process, as the events it delivers *)

Inductive ProcEvent : Type :=
| StdoutData (data : string)
| StderrData (data : string)
| ProcError (err : Error.t)
| StdoutClose (code : JValue).

(** The options object handed to [new JsForce.Connection(...)]. *)
Record ConnectionOptions : Type :=
  { serverUrl : JValue; sessionId : JValue }.

(** ** The host interface *)

Class Host : Type := {
  (** [JSON.parse(text)] *)
  JSON_parse : string -> Completion JValue;
  (** [path.resolve(p)], against the current working directory *)
  path_resolve : string -> string;
  (** [childProcess.spawn(command, args, {encoding: 'utf8'})]: the events
      the child delivers, in order *)
  childProcess_spawn : string -> list string -> list ProcEvent;
  (** the state of the file system *)
  FS : Type;
  fs_existsSync : FS -> string -> bool;
  fs_readJsonSync : FS -> string -> Completion JValue;
  fs_readFileSync : FS -> string -> Completion string;
  fs_writeFileSync : FS -> string -> JValue -> Completion unit * FS;
  fs_ensureDirSync : FS -> string -> Completion JValue * FS;
  fs_readdirSync : FS -> string -> Completion (list string);
  (** the connections of jsforce, and [new JsForce.Connection(options)],
      which can throw *)
  Connection : Type;
  JsForce_Connection : ConnectionOptions -> Completion Connection
}.

(** JavaScript truthiness, for the values tested by the connector. *)
Definition truthy (v : JValue) : bool :=
  match v with
  | JUndefined | JNull => false
  | JBool b => b
  | JNum n => negb (n =? 0)
  | JStr s => negb (String.eqb s "")
  | JArr _ | JObj _ => true
  | JReal NaN => false
  | JReal _ => true
  end.

(** [alias || 'default'] inside a template literal; an absent alias is
  [None]. *)
Definition alias_or_default (alias : option string) : string :=
  match alias with
  | Some (String c s) => String c s
  | _ => "default"
  end.

(** [v === 0] *)
Definition strict_eq_zero (v : JValue) : bool :=
  match v with JNum 0 => true | _ => false end.

(** Inside the [async] executor of [getConnectionDetail] nothing catches:
  an exception there rejects the executor's own, discarded, promise and
  neither [resolve] nor [reject] is called. *)
Definition in_executor {A B : Type} (c : Completion A) (k : A -> Settled B)
    : Settled B :=
  match c with
  | Return a => k a
  | Throw _ => Pending
  end.

Notation "x <-! c ; k" := (in_executor c (fun x => k))
  (at level 200, c at level 100, k at level 200, right associativity,
   format "'[v' x  <-!  c ; '/' k ']'").

(** [v.k] as a value, for a [v] that has properties. *)
Definition member (v : JValue) (k : string) : JValue :=
  match get_prop v k with
  | Return x => x
  | Throw _ => JUndefined
  end.

Definition nullish (v : JValue) : bool :=
  match v with
  | JUndefined | JNull => true
  | _ => false
  end.

Definition is_close (ev : ProcEvent) : bool :=
  match ev with StdoutClose _ => true | _ => false end.

Definition is_error (ev : ProcEvent) : bool :=
  match ev with ProcError _ => true | _ => false end.


(** ** class SalesforceCliConnector *)

Section Connector.
Context {H : Host}.

(** The argument vector built by [getOrgDetail]. *)
Definition orgDetail_args (alias : option string) : list string :=
  match alias with
  | Some (String c s) => ["force:org:display"; "--json"; "-u"; String c s]
  | _ => ["force:org:display"; "--json"]
  end.

(** The four handlers of [getOrgDetail], run over the events: [results]
    and [streamError] are the two captured variables; the promise settles
    at the first [close] of stdout. *)
Fixpoint getOrgDetail_handlers (alias : option string) (events : list ProcEvent)
    (results : string) (streamError : option Error.t) : Settled string :=
  match events with
  | [] => Pending
  | StdoutClose _ :: _ =>
      match streamError with
      | Some err =>
          Rejected (ThrownDeveloperError (DeveloperError.mk
            (JStr ("Error occurred while asking the salesforce cli for alias:"
                   +:+ alias_or_default alias
                   +:+ ", is the salesforce cli installed?"))
            (JStr (Error.message err))
            (JStr (Error.stack err))))
      | None => Resolved results
      end
  | StdoutData data :: rest =>
      getOrgDetail_handlers alias rest (results +:+ data) streamError
  | StderrData data :: rest =>
      getOrgDetail_handlers alias rest (results +:+ data) streamError
  | ProcError err :: rest =>
      getOrgDetail_handlers alias rest results (Some err)
  end.

Definition getOrgDetail (alias : option string) : Settled string :=
  getOrgDetail_handlers alias
    (childProcess_spawn "sfdx" (orgDetail_args alias)) "" None.

(** [getConnectionDetail(alias)], with the lines it logs.  Its executor
    is an [async] function: an exception that escapes it after the two
    [try] blocks settles nothing (see [in_executor]). *)
Definition getConnectionDetail (traceLevel : Z) (alias : option string)
    : Settled JValue * list LogLine :=
  match getOrgDetail alias with
  | Rejected err => (Rejected err, [])
  | Pending => (Pending, [])
  | Resolved conn =>
      let trace :=
        if ERROR_LEVEL_BASIC <? traceLevel
        then [logger_info "captured result: %o" [JStr conn]] else [] in
      match JSON_parse conn with
      | Throw err =>
          (Rejected (ThrownDeveloperError (DeveloperError.mk
             (JStr ("Unable to get connection:" +:+ alias_or_default alias))
             (JStr (Error.message err))
             (JStr (Error.stack err)))), trace)
      | Return connObj =>
          (status <-! get_prop connObj "status";
           if strict_eq_zero status then
             result <-! get_prop connObj "result";
             Resolved result
           else
             message <-! get_prop connObj "message";
             stack <-! get_prop connObj "stack";
             Rejected (ThrownDeveloperError (DeveloperError.mk
               (JStr ("Unable to find connection:" +:+ alias_or_default alias))
               message stack)),
           trace)
      end
  end.

(** [getConnection(alias)]: everything inside its [try] is caught. *)
Definition getConnection (traceLevel : Z) (alias : option string)
    : Settled (option Connection) * list LogLine :=
  let catch (err : Thrown) (logged : list LogLine) :=
    let cleanedErr := importError err in
    (Resolved None, logged ++ DeveloperError.log cleanedErr traceLevel) in
  match getConnectionDetail traceLevel alias with
  | (Pending, logged) => (Pending, logged)
  | (Rejected err, logged) => catch err logged
  | (Resolved connectionInfo, logged) =>
      match get_prop connectionInfo "instanceUrl" with
      | Throw e => catch (ThrownError e) logged
      | Return instanceUrl =>
          match get_prop connectionInfo "accessToken" with
          | Throw e => catch (ThrownError e) logged
          | Return accessToken =>
              match
                JsForce_Connection
                  {| serverUrl := instanceUrl; sessionId := accessToken |}
              with
              | Throw e => catch (ThrownError e) logged
              | Return connection => (Resolved (Some connection), logged)
              end
          end
      end
  end.

(** *** The file helpers *)

(** Each helper yields what the call evaluates to (a value, or an
    exception reaching the caller), the lines logged, and, where the
    helper can change it, the file system afterwards. *)

Definition readJSON (traceLevel : Z) (fs : FS) (filePath : string)
    : Completion JValue * list LogLine :=
  let resolvedPath := path_resolve filePath in
  if negb (fs_existsSync fs resolvedPath) then
    (Return JUndefined, [logger_error "File does not exist: %s" [JStr resolvedPath]])
  else
    match fs_readJsonSync fs resolvedPath with
    | Return result => (Return result, [])
    | Throw err =>
        (Return JUndefined,
         DeveloperError.log (DeveloperError.mk
           (JStr ("unable to read file: " +:+ resolvedPath))
           (JStr (Error.message err)) (JStr (Error.stack err))) traceLevel)
    end.

Definition readFile (traceLevel : Z) (fs : FS) (filePath : string)
    : Completion JValue * list LogLine :=
  let resolvedPath := path_resolve filePath in
  if negb (fs_existsSync fs resolvedPath) then
    (Return JUndefined, [logger_error "File does not exist: %s" [JStr resolvedPath]])
  else
    match fs_readFileSync fs resolvedPath with
    | Return result => (Return (JStr result), [])
    | Throw err =>
        (Return JUndefined,
         DeveloperError.log (DeveloperError.mk
           (JStr ("unable to read file: " +:+ resolvedPath))
           (JStr (Error.message err)) (JStr (Error.stack err))) traceLevel)
    end.

(** [writeFile(filePath, contents)]: the path is handed to [fs] as it is,
    with no existence check. *)
Definition writeFile (traceLevel : Z) (fs : FS) (filePath : string)
    (contents : JValue) : Completion JValue * list LogLine * FS :=
  let jsonContents := JSON_stringify contents in
  match fs_writeFileSync fs filePath jsonContents with
  | (Return _, fs') => (Return JUndefined, [], fs')
  | (Throw err, fs') =>
      (Return JUndefined,
       DeveloperError.log (DeveloperError.mk
         (JStr ("unable to write to file: " +:+ filePath))
         (JStr (Error.message err)) (JStr (Error.stack err))) traceLevel,
       fs')
  end.

Definition listFiles (traceLevel : Z) (fs : FS) (directoryPath : string)
    : Completion JValue * list LogLine * FS :=
  let resolvedPath := path_resolve directoryPath in
  if negb (fs_existsSync fs resolvedPath) then
    (Return JUndefined, [logger_error "Path does not exist: %s" [JStr resolvedPath]], fs)
  else
    match fs_ensureDirSync fs resolvedPath with
    | (Throw e, fs') => (Throw e, [], fs')
    | (Return made, fs') =>
        if truthy made then
          (Return JUndefined,
           [logger_error ("Path is not a directory:" +:+ resolvedPath) []], fs')
        else
          match fs_readdirSync fs' resolvedPath with
          | Return results => (Return (JArr (map JStr results)), [], fs')
          | Throw err =>
              (Return JUndefined,
               DeveloperError.log (DeveloperError.mk
                 (JStr ("unable to read directory: " +:+ resolvedPath))
                 (JStr (Error.message err)) (JStr (Error.stack err))) traceLevel,
               fs')
          end
    end.

End Connector.

(** * A reference host *)

(** ** Reading JSON

    A recursive-descent reader for the JSON grammar.  A number is read
    exactly and rounded to the nearest double; a [\u] escape gives the
    UTF-8 bytes of its code unit, an escaped surrogate pair those of the
    character it encodes.  Fuel bounds the nesting; the entry point
    supplies as much as any text can use (lemma [parse_fuel_enough]). *)

Definition is_ws (c : ascii) : bool :=
  let n := nat_of_ascii c in
  Nat.eqb n 32 || Nat.eqb n 9 || Nat.eqb n 10 || Nat.eqb n 13.

Fixpoint skip_ws (s : string) : string :=
  match s with
  | String c rest => if is_ws c then skip_ws rest else s
  | EmptyString => EmptyString
  end.

(** The number a sign, a mantissa and a decimal exponent denote:
    [mantissa * 10^exponent], rounded.  An integer up to [2^53] is a
    double; the bounds on the exponent keep the powers of ten small where
    the result is an infinity or zero whatever the digits. *)
Fixpoint halve (fuel : nat) (q u : Z) : Z * Z :=
  match fuel with
  | O => (q, u)
  | S fuel' =>
      if (u <? 0) && Z.even q then halve fuel' (q / 2) (u + 1) else (q, u)
  end.

Definition number_of (negative : bool) (q u : Z) : JValue :=
  if q =? 0 then JNum 0
  else
    let (m, e) := halve 1074 q u in
    let m' := if negative then - m else m in
    if 0 <=? e then JNum (m' * 2 ^ e)
    else JReal (Fraction m' (Z.to_pos (- e))).

Definition of_decimal (negative : bool) (mantissa exponent : Z) : JValue :=
  if mantissa =? 0 then JNum 0
  else if (exponent =? 0) && (mantissa <=? 2 ^ 53) then
    JNum (if negative then - mantissa else mantissa)
  else if 310 <? exponent then JReal (Infinity negative)
  else if exponent + (Z.log2 mantissa / 3 + 1) <? -330 then JNum 0
  else
    let (num, den) :=
      if 0 <=? exponent then (mantissa * 10 ^ exponent, 1)
      else (mantissa, 10 ^ (- exponent)) in
    match nearest num den with
    | None => JReal (Infinity negative)
    | Some (q, u) => number_of negative q u
    end.

(** The fraction of a number literal: a point and at least one digit. *)
Definition read_fraction (s : string) : option (Decimal.uint * string) :=
  match s with
  | String c rest =>
      if Ascii.eqb c "." then
        match read_digits rest with
        | (Decimal.Nil, _) => None
        | (fs, rest') => Some (fs, rest')
        end
      else Some (Decimal.Nil, s)
  | EmptyString => Some (Decimal.Nil, s)
  end.

(** Its exponent: [e] or [E], an optional sign, at least one digit. *)
Definition read_exponent (s : string) : option (Z * string) :=
  match s with
  | String c rest =>
      if Ascii.eqb c "e" || Ascii.eqb c "E" then
        let (negative, rest1) :=
          match rest with
          | String sign rest' =>
              if Ascii.eqb sign "-" then (true, rest')
              else if Ascii.eqb sign "+" then (false, rest')
              else (false, rest)
          | EmptyString => (false, rest)
          end in
        match read_digits rest1 with
        | (Decimal.Nil, _) => None
        | (es, rest2) =>
            Some (if negative then - Z.of_uint es else Z.of_uint es, rest2)
        end
      else Some (0, s)
  | EmptyString => Some (0, s)
  end.

(** The digits before the point are [0], or do not start with [0]. *)
Definition read_unsigned (negative : bool) (s : string)
    : option (JValue * string) :=
  let (ds, rest) := read_digits s in
  match ds with
  | Decimal.Nil => None
  | _ =>
      if Decimal.uint_beq (Decimal.unorm ds) ds then
        match read_fraction rest with
        | None => None
        | Some (fs, rest1) =>
            match read_exponent rest1 with
            | None => None
            | Some (exponent, rest2) =>
                Some (of_decimal negative
                        (Z.of_uint (Decimal.app ds fs))
                        (exponent - Z.of_nat (Decimal.nb_digits fs)),
                      rest2)
            end
        end
      else None
  end.

(** An optional minus sign, then the number. *)
Definition read_number (s : string) : option (JValue * string) :=
  match s with
  | String c rest =>
      if Ascii.eqb c "-" then read_unsigned true rest
      else read_unsigned false s
  | EmptyString => None
  end.

Definition hex_value (c : ascii) : option nat :=
  let n := nat_of_ascii c in
  if Nat.leb 48 n && Nat.leb n 57 then Some (n - 48)%nat
  else if Nat.leb 97 n && Nat.leb n 102 then Some (n - 87)%nat
  else if Nat.leb 65 n && Nat.leb n 70 then Some (n - 55)%nat
  else None.

Definition unescape (c : ascii) : option ascii :=
  match nat_of_ascii c with
  | 34%nat => Some dquote
  | 92%nat => Some backslash
  | 47%nat => Some "/"%char
  | 98%nat => Some (ascii_of_nat 8)
  | 102%nat => Some (ascii_of_nat 12)
  | 110%nat => Some (ascii_of_nat 10)
  | 114%nat => Some (ascii_of_nat 13)
  | 116%nat => Some (ascii_of_nat 9)
  | _ => None
  end.

Definition prepend (c : ascii) (r : option (string * string))
    : option (string * string) :=
  match r with
  | Some (body, rest) => Some (String c body, rest)
  | None => None
  end.

Definition prepend_text (t : string) (r : option (string * string))
    : option (string * string) :=
  match r with
  | Some (body, rest) => Some (t +:+ body, rest)
  | None => None
  end.

Definition hex4_value (h1 h2 h3 h4 : ascii) : option Z :=
  match hex_value h1, hex_value h2, hex_value h3, hex_value h4 with
  | Some a, Some b, Some c, Some d =>
      Some (4096 * Z.of_nat a + 256 * Z.of_nat b + 16 * Z.of_nat c + Z.of_nat d)
  | _, _, _, _ => None
  end.

Definition byte (n : Z) : ascii := ascii_of_N (Z.to_N n).

(** The UTF-8 bytes of a code point (of a lone surrogate too). *)
Definition utf8 (cp : Z) : string :=
  if cp <? 128 then String (byte cp) ""
  else if cp <? 2048 then
    String (byte (192 + cp / 64)) (String (byte (128 + cp mod 64)) "")
  else if cp <? 65536 then
    String (byte (224 + cp / 4096))
      (String (byte (128 + cp / 64 mod 64)) (String (byte (128 + cp mod 64)) ""))
  else
    String (byte (240 + cp / 262144))
      (String (byte (128 + cp / 4096 mod 64))
         (String (byte (128 + cp / 64 mod 64))
            (String (byte (128 + cp mod 64)) ""))).

(** The characters of a string literal, after its opening quote. *)
Fixpoint read_string (s : string) : option (string * string) :=
  match s with
  | EmptyString => None
  | String c rest =>
      if Ascii.eqb c dquote then Some (EmptyString, rest)
      else if Ascii.eqb c backslash then
        match rest with
        | String e rest1 =>
            if Ascii.eqb e "u" then
              match rest1 with
              | String h1 (String h2 (String h3 (String h4 rest2))) =>
                  match hex4_value h1 h2 h3 h4 with
                  | None => None
                  | Some u =>
                      let single := prepend_text (utf8 u) (read_string rest2) in
                      if (55296 <=? u) && (u <=? 56319) then
                        match rest2 with
                        | String b1 (String b2 (String g1 (String g2
                            (String g3 (String g4 rest3))))) =>
                            if Ascii.eqb b1 backslash && Ascii.eqb b2 "u" then
                              match hex4_value g1 g2 g3 g4 with
                              | Some v =>
                                  if (56320 <=? v) && (v <=? 57343) then
                                    prepend_text
                                      (utf8 (65536 + (u - 55296) * 1024
                                             + (v - 56320)))
                                      (read_string rest3)
                                  else single
                              | None => single
                              end
                            else single
                        | _ => single
                        end
                      else single
                  end
              | _ => None
              end
            else
              match unescape e with
              | Some ch => prepend ch (read_string rest1)
              | None => None
              end
        | EmptyString => None
        end
      else if Nat.ltb (nat_of_ascii c) 32 then None
      else prepend c (read_string rest)
  end.

Fixpoint strip_prefix (p s : string) : option string :=
  match p, s with
  | EmptyString, _ => Some s
  | String a p', String b s' => if Ascii.eqb a b then strip_prefix p' s' else None
  | String _ _, EmptyString => None
  end.

(** [CreateDataProperty] while reading an object: a repeated key keeps its
    place and takes the later value. *)
Fixpoint obj_set (k : string) (v : JValue) (props : list (string * JValue))
    : list (string * JValue) :=
  match props with
  | [] => [(k, v)]
  | (k', v') :: rest =>
      if String.eqb k k' then (k', v) :: rest else (k', v') :: obj_set k v rest
  end.

Fixpoint read_value (fuel : nat) (s : string) : option (JValue * string) :=
  match fuel with
  | O => None
  | S fuel' =>
      match skip_ws s with
      | EmptyString => None
      | String c rest =>
          if Ascii.eqb c "[" then
            match skip_ws rest with
            | String c' rest' =>
                if Ascii.eqb c' "]" then Some (JArr [], rest')
                else read_elements fuel' rest []
            | EmptyString => None
            end
          else if Ascii.eqb c "{" then
            match skip_ws rest with
            | String c' rest' =>
                if Ascii.eqb c' "}" then Some (JObj [], rest')
                else read_members fuel' rest []
            | EmptyString => None
            end
          else if Ascii.eqb c dquote then
            match read_string rest with
            | Some (body, rest') => Some (JStr body, rest')
            | None => None
            end
          else if Ascii.eqb c "n" then
            option_map (pair JNull) (strip_prefix "ull" rest)
          else if Ascii.eqb c "t" then
            option_map (pair (JBool true)) (strip_prefix "rue" rest)
          else if Ascii.eqb c "f" then
            option_map (pair (JBool false)) (strip_prefix "alse" rest)
          else
            read_number (String c rest)
      end
  end
with read_elements (fuel : nat) (s : string) (acc : list JValue)
    : option (JValue * string) :=
  match fuel with
  | O => None
  | S fuel' =>
      match read_value fuel' s with
      | None => None
      | Some (v, rest) =>
          match skip_ws rest with
          | String c rest' =>
              if Ascii.eqb c "," then read_elements fuel' rest' (acc ++ [v])
              else if Ascii.eqb c "]" then Some (JArr (acc ++ [v]), rest')
              else None
          | EmptyString => None
          end
      end
  end
with read_members (fuel : nat) (s : string) (acc : list (string * JValue))
    : option (JValue * string) :=
  match fuel with
  | O => None
  | S fuel' =>
      match skip_ws s with
      | String q rest =>
          if Ascii.eqb q dquote then
            match read_string rest with
            | None => None
            | Some (k, rest1) =>
                match skip_ws rest1 with
                | String colon rest2 =>
                    if Ascii.eqb colon ":" then
                      match read_value fuel' rest2 with
                      | None => None
                      | Some (v, rest3) =>
                          match skip_ws rest3 with
                          | String c rest4 =>
                              if Ascii.eqb c ","
                              then read_members fuel' rest4 (obj_set k v acc)
                              else if Ascii.eqb c "}"
                              then Some (JObj (obj_set k v acc), rest4)
                              else None
                          | EmptyString => None
                          end
                      end
                    else None
                | EmptyString => None
                end
            end
          else None
      | EmptyString => None
      end
  end.

Definition SyntaxError : Error.t :=
  Error.mk "Unexpected token in JSON"
    ("SyntaxError: Unexpected token in JSON" +:+ nl
     +:+ "    at JSON.parse (<anonymous>)").

(** The reference [JSON.parse]: one value, with white space around it. *)
Definition parse (text : string) : Completion JValue :=
  match read_value (S (String.length text)) text with
  | Some (v, rest) =>
      match skip_ws rest with
      | EmptyString => Return v
      | String _ _ => Throw SyntaxError
      end
  | None => Throw SyntaxError
  end.

(** Apostrophes for double quotes, to write JSON texts down. *)
Fixpoint json_text (s : string) : string :=
  match s with
  | EmptyString => EmptyString
  | String c rest =>
      String (if Ascii.eqb c "'" then dquote else c) (json_text rest)
  end.

(** ** path.resolve (POSIX), one argument *)

Fixpoint split_path (s : string) : string * list string :=
  match s with
  | EmptyString => (EmptyString, [])
  | String c rest =>
      let (seg, segs) := split_path rest in
      if Ascii.eqb c "/" then (EmptyString, seg :: segs) else (String c seg, segs)
  end.

Definition segments (s : string) : list string :=
  let (seg, segs) := split_path s in seg :: segs.

(** Walks the segments, dropping empty ones and [.], stepping back on
    [..]; [stack] holds the directories entered so far, innermost first. *)
Fixpoint normalize (stack segs : list string) : list string :=
  match segs with
  | [] => rev stack
  | seg :: rest =>
      if String.eqb seg "" || String.eqb seg "." then normalize stack rest
      else if String.eqb seg ".." then normalize (tail stack) rest
      else normalize (seg :: stack) rest
  end.

Fixpoint render (segs : list string) : string :=
  match segs with
  | [] => EmptyString
  | seg :: rest => String "/" (seg +:+ render rest)
  end.

Definition absolute (segs : list string) : string :=
  match segs with
  | [] => "/"
  | _ => render segs
  end.

Definition is_absolute (p : string) : bool :=
  match p with
  | String c _ => Ascii.eqb c "/"
  | EmptyString => false
  end.

Definition canonical (cwd p : string) : list string :=
  normalize [] (segments (if is_absolute p then p else cwd +:+ "/" +:+ p)).

Definition resolve (cwd p : string) : string := absolute (canonical cwd p).

(** ** An in-memory file tree *)

Inductive Entry : Type :=
| RegularFile (content : string)
| Directory.

(** The tree, by absolute path; the root is always there. *)
Definition entry_at (disk : gmap string Entry) (q : string) : option Entry :=
  if String.eqb q "/" then Some Directory else disk !! q.

Definition sys_error (code description syscall path : string) : Error.t :=
  let msg :=
    code +:+ ": " +:+ description +:+ ", " +:+ syscall +:+ " '" +:+ path +:+ "'" in
  Error.mk msg ("Error: " +:+ msg).

Definition ENOENT := sys_error "ENOENT" "no such file or directory".
Definition EISDIR := sys_error "EISDIR" "illegal operation on a directory".
Definition ENOTDIR := sys_error "ENOTDIR" "not a directory".
Definition EEXIST := sys_error "EEXIST" "file already exists".

Definition ERR_INVALID_ARG_TYPE : Error.t :=
  let msg := json_text
    "The 'data' argument must be of type string or an instance of Buffer, TypedArray, or DataView." in
  Error.mk msg ("TypeError [ERR_INVALID_ARG_TYPE]: " +:+ msg).

Section Disk.
Variable cwd : string.

Definition existsSync (disk : gmap string Entry) (p : string) : bool :=
  match entry_at disk (resolve cwd p) with
  | Some _ => true
  | None => false
  end.

Definition readFileSync (disk : gmap string Entry) (p : string)
    : Completion string :=
  match entry_at disk (resolve cwd p) with
  | Some (RegularFile content) => Return content
  | Some Directory => Throw (EISDIR "read" p)
  | None => Throw (ENOENT "open" p)
  end.

(** [content.replace(/^\uFEFF/, '')], on UTF-8 bytes *)
Definition stripBom (content : string) : string :=
  match content with
  | String a (String b (String c rest)) =>
      if Nat.eqb (nat_of_ascii a) 239 && Nat.eqb (nat_of_ascii b) 187
         && Nat.eqb (nat_of_ascii c) 191
      then rest else content
  | _ => content
  end.

(** fs-extra's [readJsonSync] (jsonfile): read, strip the mark, parse; a
    failure is rethrown with the file name put before its message. *)
Definition readJsonSync (disk : gmap string Entry) (p : string)
    : Completion JValue :=
  let rethrow (err : Error.t) :=
    Throw (Error.mk (p +:+ ": " +:+ Error.message err) (Error.stack err)) in
  match readFileSync disk p with
  | Throw err => rethrow err
  | Return content =>
      match parse (stripBom content) with
      | Throw err => rethrow err
      | Return v => Return v
      end
  end.

(** [fs.writeFileSync(p, data)] is handed the path as the caller wrote it,
    and the system follows it component by component: [walk] gives the
    directory reached (innermost name first) and the last name, when the
    path ends in one.  Creating a file at a path that ends in a slash is
    refused, and so is writing to a directory. *)
Fixpoint walk (disk : gmap string Entry) (syscall p : string)
    (stack segs : list string) : Completion (list string * option string) :=
  match segs with
  | [] => Return (stack, None)
  | seg :: rest =>
      if String.eqb seg "" || String.eqb seg "." then
        walk disk syscall p stack rest
      else if String.eqb seg ".." then walk disk syscall p (tail stack) rest
      else
        match rest with
        | [] => Return (stack, Some seg)
        | _ :: _ =>
            match entry_at disk (absolute (rev (seg :: stack))) with
            | Some Directory => walk disk syscall p (seg :: stack) rest
            | Some (RegularFile _) => Throw (ENOTDIR syscall p)
            | None => Throw (ENOENT syscall p)
            end
        end
  end.

(** The segments without the empty ones a trailing slash leaves. *)
Fixpoint strip_slash (segs : list string) : list string :=
  match segs with
  | [] => []
  | seg :: rest =>
      match strip_slash rest with
      | [] => if String.eqb seg "" then [] else [seg]
      | rest' => seg :: rest'
      end
  end.

Definition writeFileSync (disk : gmap string Entry) (p : string) (data : JValue)
    : Completion unit * gmap string Entry :=
  match data with
  | JStr text =>
      let segs := segments (if is_absolute p then p else cwd +:+ "/" +:+ p) in
      if String.eqb p "" then (Throw (ENOENT "open" p), disk)
      else
        match walk disk "open" p [] (strip_slash segs) with
        | Throw err => (Throw err, disk)
        | Return (_, None) => (Throw (EISDIR "open" p), disk)
        | Return (stack, Some name) =>
            if bool_decide (strip_slash segs = segs) then
              let q := absolute (rev (name :: stack)) in
              match entry_at disk q with
              | Some Directory => (Throw (EISDIR "open" p), disk)
              | _ => (Return tt, <[q := RegularFile text]> disk)
              end
            else (Throw (EISDIR "open" p), disk)
        end
  | _ => (Throw ERR_INVALID_ARG_TYPE, disk)
  end.

(** [mkdir -p], from the root down; [made] is the first directory created. *)
Fixpoint mkdirs (disk : gmap string Entry) (above below : list string)
    (made : JValue) : Completion JValue * gmap string Entry :=
  match below with
  | [] => (Return made, disk)
  | seg :: rest =>
      let dir := above ++ [seg] in
      match entry_at disk (absolute dir) with
      | Some Directory => mkdirs disk dir rest made
      | Some (RegularFile _) => (Throw (ENOTDIR "mkdir" (absolute dir)), disk)
      | None =>
          mkdirs (<[absolute dir := Directory]> disk) dir rest
            (match made with JUndefined => JStr (absolute dir) | _ => made end)
      end
  end.

(** fs-extra's [ensureDirSync]: nothing to do, and nothing returned, for a
    directory that is there; an exception for a path that is a file. *)
Definition ensureDirSync (disk : gmap string Entry) (p : string)
    : Completion JValue * gmap string Entry :=
  match entry_at disk (resolve cwd p) with
  | Some Directory => (Return JUndefined, disk)
  | Some (RegularFile _) => (Throw (EEXIST "mkdir" p), disk)
  | None => mkdirs disk [] (canonical cwd p) JUndefined
  end.

Definition readdirSync (disk : gmap string Entry) (p : string)
    : Completion (list string) :=
  let dir := canonical cwd p in
  match entry_at disk (absolute dir) with
  | Some Directory =>
      Return (omap (fun q : string =>
                match reverse (canonical "/" q) with
                | name :: up =>
                    if bool_decide (reverse up = dir) then Some name else None
                | [] => None
                end) (map fst (map_to_list disk)))
  | Some (RegularFile _) => Throw (ENOTDIR "scandir" p)
  | None => Throw (ENOENT "scandir" p)
  end.

End Disk.

(** ** jsforce's Connection constructor

    As far as [serverUrl] and [sessionId] go: the instance URL is cut out
    of a truthy [serverUrl] with its [split] method, which only a string
    has; [sessionId] is stored as it is.  The connection is held as the
    options it was built from. *)

Definition not_a_function (callee : string) : Error.t :=
  let msg := callee +:+ " is not a function" in
  Error.mk msg ("TypeError: " +:+ msg).

Definition new_Connection (options : ConnectionOptions)
    : Completion ConnectionOptions :=
  match serverUrl options with
  | JStr _ => Return options
  | url =>
      if truthy url then Throw (not_a_function "options.serverUrl.split")
      else Return options
  end.

(** The reference host: working directory [cwd], and [spawn] telling what
    a spawned command delivers. *)
Definition reference_host (cwd : string)
    (spawn : string -> list string -> list ProcEvent) : Host :=
  {| JSON_parse := parse;
     path_resolve := resolve cwd;
     childProcess_spawn := spawn;
     FS := gmap string Entry;
     fs_existsSync := existsSync cwd;
     fs_readJsonSync := readJsonSync cwd;
     fs_readFileSync := readFileSync cwd;
     fs_writeFileSync := writeFileSync cwd;
     fs_ensureDirSync := ensureDirSync cwd;
     fs_readdirSync := readdirSync cwd;
     Connection := ConnectionOptions;
     JsForce_Connection := new_Connection |}.

(** * setOptions, and the constructor *)

(** ** Number.parseInt(text, 10)

    The steps of ECMAScript's [parseInt] for radix 10, on UTF-8 bytes:
    leading white space and line terminators are dropped, then an optional
    sign is read, then the longest run of digits; no digit gives [NaN],
    here [None].  Nothing after the digits is looked at. *)

(** U+1680, U+2000 to U+200A, U+2028, U+2029, U+202F, U+205F, U+3000 and
    U+FEFF, as the three bytes of their encoding. *)
Definition white_space3 (a b c : nat) : bool :=
  (Nat.eqb a 225 && Nat.eqb b 154 && Nat.eqb c 128)
  || (Nat.eqb a 226 && Nat.eqb b 128
      && ((Nat.leb 128 c && Nat.leb c 138)
          || Nat.eqb c 168 || Nat.eqb c 169 || Nat.eqb c 175))
  || (Nat.eqb a 226 && Nat.eqb b 129 && Nat.eqb c 159)
  || (Nat.eqb a 227 && Nat.eqb b 128 && Nat.eqb c 128)
  || (Nat.eqb a 239 && Nat.eqb b 187 && Nat.eqb c 191).

(** TAB, LF, VT, FF, CR and SP. *)
Definition white_space1 (a : nat) : bool :=
  (Nat.leb 9 a && Nat.leb a 13) || Nat.eqb a 32.

Fixpoint trim_start (s : string) : string :=
  match s with
  | EmptyString => EmptyString
  | String c rest =>
      let a := nat_of_ascii c in
      if white_space1 a then trim_start rest
      else
        match rest with
        | EmptyString => s
        | String c1 rest1 =>
            let b := nat_of_ascii c1 in
            if Nat.eqb a 194 && Nat.eqb b 160 then trim_start rest1
            else
              match rest1 with
              | EmptyString => s
              | String c2 rest2 =>
                  if white_space3 a b (nat_of_ascii c2) then trim_start rest2
                  else s
              end
        end
  end.

(** The digits of the text, as a number with the given sign. *)
Definition parse_digits (negative : bool) (s : string) : option Z :=
  match fst (read_digits s) with
  | Decimal.Nil => None
  | ds => Some (Z.of_int (if negative then Decimal.Neg ds else Decimal.Pos ds))
  end.

Definition parseInt (text : string) : option Z :=
  match trim_start text with
  | EmptyString => None
  | String c rest =>
      if Ascii.eqb c "-" then parse_digits true rest
      else if Ascii.eqb c "+" then parse_digits false rest
      else parse_digits false (String c rest)
  end.

(** [Number.isSafeInteger], on an integer. *)
Definition isSafeInteger (n : Z) : bool := Z.abs n <=? MAX_SAFE_INTEGER.

(** ** setOptions(options)

    [TRACE_LEVEL] is [process.env.TRACE_LEVEL] when the environment has
    it; [options] is the [traceLevel] of the options object when it has
    one (an integer).  The result is the new [this.traceLevel]: nothing of
    the previous one is kept. *)
Definition setOptions (TRACE_LEVEL : option string) (options : option Z) : Z :=
  let defaults :=
    match TRACE_LEVEL with
    | Some text =>
        match parseInt text with
        | Some envTraceLevel =>
            if isSafeInteger envTraceLevel then envTraceLevel
            else ERROR_LEVEL_BASIC
        | None => ERROR_LEVEL_BASIC
        end
    | None => ERROR_LEVEL_BASIC
    end in
  match options with
  | Some traceLevel => traceLevel
  | None => defaults
  end.

(** [new SalesforceCliConnector()]: [this.setOptions({})]. *)
Definition constructor (TRACE_LEVEL : option string) : Z :=
  setOptions TRACE_LEVEL None.

(** * Notions used in the statements and proofs *)

(** The DeveloperError built by a file helper's [catch]. *)
Definition io_failure (what path : string) (err : Error.t) : DeveloperError.t :=
  DeveloperError.mk (JStr (what +:+ path))
    (JStr (Error.message err)) (JStr (Error.stack err)).

(** The lines an error is to leave at a trace level, spelled out: none
    below zero, the client message at zero, and above zero the message
    with the detail and the stack. *)
Definition error_logged (lines : list LogLine) (message detail stack : JValue)
    (traceLevel : Z) : Prop :=
  (traceLevel <= -1 -> lines = [])
  /\ (traceLevel = 0 ->
      lines = [mkLog LevelError "Error occurred:%s" [message]])
  /\ (0 < traceLevel ->
      lines = [mkLog LevelError
                 ("Error occurred:%s " +:+ nl +:+ " %s " +:+ nl +:+ " %o")
                 [message; detail; stack]]).

(** Texts: white space only; starting with a digit; starting a value. *)
Fixpoint ws_only (s : string) : bool :=
  match s with
  | EmptyString => true
  | String c rest => is_ws c && ws_only rest
  end.

Definition digit_head (s : string) : bool :=
  match s with
  | String c _ => match digit_of c with Some _ => true | None => false end
  | EmptyString => false
  end.


Definition number_start (c : ascii) : bool :=
  match digit_of c with
  | Some _ => true
  | None => Ascii.eqb c "-"
  end.

Definition value_start (c : ascii) : bool :=
  match digit_of c with
  | Some _ => true
  | None =>
      Ascii.eqb c dquote || Ascii.eqb c "[" || Ascii.eqb c "{" || Ascii.eqb c "-"
      || Ascii.eqb c "n" || Ascii.eqb c "t" || Ascii.eqb c "f"
  end.

Definition starts_value (text : string) : Prop :=
  exists c t, text = String c t /\ value_start c = true.




(** What a successful read guarantees: it consumed something, and any
    fuel covering what it consumed gives the same result. *)
Definition adequate {A : Type} (read : nat -> string -> option (A * string))
    (fuel' : nat) : Prop :=
  forall s r rest,
    read fuel' s = Some (r, rest) ->
    (String.length rest < String.length s)%nat
    /\ forall fuel,
         (String.length s - String.length rest <= fuel)%nat ->
         read fuel s = Some (r, rest).

(** What [getOrgDetail] has captured once the events have been handled. *)
Fixpoint captured (events : list ProcEvent) : string :=
  match events with
  | [] => EmptyString
  | StdoutData data :: rest => data +:+ captured rest
  | StderrData data :: rest => data +:+ captured rest
  | _ :: rest => captured rest
  end.

(** Path segments: free of [/]; and neither empty, [.] nor [..]. *)
Fixpoint no_slash (s : string) : bool :=
  match s with
  | EmptyString => true
  | String c rest => negb (Ascii.eqb c "/") && no_slash rest
  end.

Definition plain (seg : string) : Prop :=
  no_slash seg = true /\ seg <> "" /\ seg <> "." /\ seg <> "..".

(** * A worked host

    The working directory holds one text file; [sfdx] answers for three
    aliases and cannot be launched for any other request. *)

Definition response_ok : string :=
  json_text
    "{'status':0,'result':{'instanceUrl':'https://x','accessToken':'tok'}}".

Definition response_failed : string :=
  json_text "{'status':1,'message':'no such org','stack':'...'}".

Definition spawn_ENOENT : Error.t :=
  Error.mk "spawn sfdx ENOENT" "Error: spawn sfdx ENOENT".

Definition demo_spawn (command : string) (args : list string)
    : list ProcEvent :=
  match args with
  | [_; _; _; alias] =>
      if String.eqb alias "dev" then
        [StdoutData response_ok; StdoutClose JUndefined]
      else if String.eqb alias "gone" then
        [StdoutData response_failed; StdoutClose JUndefined]
      else if String.eqb alias "garbled" then
        [StderrData "sfdx: unexpected output"; StdoutClose JUndefined]
      else [ProcError spawn_ENOENT; StdoutClose JUndefined]
  | _ => [ProcError spawn_ENOENT; StdoutClose JUndefined]
  end.

Definition demo_host : Host := reference_host "/repl" demo_spawn.

Definition demo_disk : gmap string Entry :=
  <["/repl" := Directory]> (<["/repl/notes.txt" := RegularFile "hi"]> ∅).

Definition demo_value : JValue := JObj [("a", JNum 1)].

(** * Properties *)

(** ** Errors and logging *)

Lemma alias_or_default_blank :
  alias_or_default None = "default" /\ alias_or_default (Some "") = "default".
Proof. split; reflexivity. Qed.

Lemma alias_or_default_given (c : ascii) (s : string) :
  alias_or_default (Some (String c s)) = String c s.
Proof. reflexivity. Qed.

Lemma log_silent (d : DeveloperError.t) (traceLevel : Z) :
  traceLevel <= ERROR_LEVEL_NONE -> DeveloperError.log d traceLevel = [].
Proof.
  unfold DeveloperError.log, ERROR_LEVEL_NONE. intros Hle.
  destruct (Z.ltb_spec (-1) traceLevel); [lia | reflexivity].
Qed.

Lemma log_basic (d : DeveloperError.t) :
  DeveloperError.log d ERROR_LEVEL_BASIC
  = [logger_error "Error occurred:%s" [DeveloperError.message d]].
Proof. reflexivity. Qed.

Lemma log_detail (d : DeveloperError.t) (traceLevel : Z) :
  ERROR_LEVEL_BASIC < traceLevel ->
  DeveloperError.log d traceLevel
  = [logger_error ("Error occurred:%s " +:+ nl +:+ " %s " +:+ nl +:+ " %o")
       [DeveloperError.message d; DeveloperError.detailMessage d;
        DeveloperError.stack d]].
Proof.
  unfold DeveloperError.log, ERROR_LEVEL_NONE, ERROR_LEVEL_BASIC. intros Hlt.
  destruct (Z.ltb_spec (-1) traceLevel); [| lia].
  destruct (Z.eqb_spec traceLevel 0); [lia |].
  destruct (Z.ltb_spec 0 traceLevel); [reflexivity | lia].
Qed.

(** ** getOrgDetail *)

Section OrgDetail.
Context {H : Host}.

(** Output that arrives before the stream closes is appended, whichever
    stream it came from; an error event replaces [streamError]. *)
Lemma handlers_app (alias : option string) (before after : list ProcEvent) :
  forallb (fun ev => negb (is_close ev)) before = true ->
  forall results streamError,
  exists results' streamError',
    getOrgDetail_handlers alias (before ++ after) results streamError
    = getOrgDetail_handlers alias after results' streamError'
    /\ (forallb (fun ev => negb (is_error ev)) before = true ->
        streamError' = streamError).
Proof.
  induction before as [| ev before IH]; intros Hopen results streamError.
  - exists results, streamError. split; reflexivity.
  - simpl in Hopen. apply andb_prop in Hopen as [Hev Hopen].
    destruct ev as [data | data | err | code]; simpl in *; try discriminate.
    + destruct (IH Hopen (results +:+ data) streamError) as (r & e & Heq & Hkeep).
      exists r, e. split; assumption.
    + destruct (IH Hopen (results +:+ data) streamError) as (r & e & Heq & Hkeep).
      exists r, e. split; assumption.
    + destruct (IH Hopen results (Some err)) as (r & e & Heq & Hkeep).
      exists r, e. split; [assumption | discriminate].
Qed.


(** The promise of [getOrgDetail] rejects only with a [DeveloperError]. *)
Lemma handlers_reject_classified (alias : option string)
    (events : list ProcEvent) :
  forall results streamError e,
  getOrgDetail_handlers alias events results streamError = Rejected e ->
  exists d, e = ThrownDeveloperError d.
Proof.
  induction events as [| [data | data | err | code] events IH];
    intros results streamError e; simpl; try discriminate; eauto.
  destruct streamError; intros [= <-]; eauto.
Qed.

End OrgDetail.

Section Resolution.
Context {H : Host}.

Lemma handlers_quiet (alias : option string) (middle after : list ProcEvent) :
  forallb (fun ev => negb (is_close ev || is_error ev)) middle = true ->
  forall results streamError,
  exists results',
    getOrgDetail_handlers alias (middle ++ after) results streamError
    = getOrgDetail_handlers alias after results' streamError.
Proof.
  induction middle as [| ev middle IH]; intros Hquiet results streamError.
  - now exists results.
  - simpl in Hquiet. apply andb_prop in Hquiet as [Hev Hquiet].
    destruct ev; simpl in *; try discriminate; apply IH; assumption.
Qed.

(** C5. If the child cannot be launched (the runtime delivers an [error]
    event, and stdout closes after it with no further error in between),
    [getOrgDetail] rejects, and so does [getConnectionDetail], with the
    DeveloperError whose message asks whether the cli is installed and
    names the alias (or [default] for an absent or empty alias), whose
    detail is the system error's message and whose stack is its stack. *)
Theorem getOrgDetail_tool_unavailable (alias : option string)
    (before middle after : list ProcEvent) (err : Error.t) (code : JValue) :
  childProcess_spawn "sfdx" (orgDetail_args alias)
  = before ++ ProcError err :: middle ++ StdoutClose code :: after ->
  forallb (fun ev => negb (is_close ev)) before = true ->
  forallb (fun ev => negb (is_close ev || is_error ev)) middle = true ->
  let unavailable :=
    ThrownDeveloperError (DeveloperError.mk
      (JStr ("Error occurred while asking the salesforce cli for alias:"
             +:+ match alias with
                 | Some (String c s) => String c s
                 | _ => "default"
                 end
             +:+ ", is the salesforce cli installed?"))
      (JStr (Error.message err))
      (JStr (Error.stack err))) in
  getOrgDetail alias = Rejected unavailable
  /\ forall traceLevel,
       getConnectionDetail traceLevel alias = (Rejected unavailable, []).
Proof.
  intros Hspawn Hopen Hquiet unavailable.
  assert (Hreject : getOrgDetail alias = Rejected unavailable).
  { unfold getOrgDetail. rewrite Hspawn.
    destruct (handlers_app alias before
                (ProcError err :: middle ++ StdoutClose code :: after)
                Hopen "" None) as (r & e & -> & _).
    cbn [getOrgDetail_handlers].
    destruct (handlers_quiet alias middle (StdoutClose code :: after)
                Hquiet r (Some err)) as (r' & ->).
    reflexivity. }
  split; [exact Hreject |].
  intros traceLevel. unfold getConnectionDetail. now rewrite Hreject.
Qed.

(** C4. When the captured output is not JSON ([JSON.parse] throws),
    [getConnectionDetail] rejects with the DeveloperError whose message is
    [Unable to get connection:] followed by the alias (or [default] for an
    absent or empty alias), whose detail is the parse error's message and
    whose stack is the parse error's stack. *)
Theorem getConnectionDetail_malformed (traceLevel : Z) (alias : option string)
    (conn : string) (err : Error.t) :
  getOrgDetail alias = Resolved conn ->
  JSON_parse conn = Throw err ->
  fst (getConnectionDetail traceLevel alias)
  = Rejected (ThrownDeveloperError (DeveloperError.mk
      (JStr ("Unable to get connection:"
             +:+ match alias with
                 | Some (String c s) => String c s
                 | _ => "default"
                 end))
      (JStr (Error.message err))
      (JStr (Error.stack err)))).
Proof.
  intros Hout Hparse. unfold getConnectionDetail.
  rewrite Hout, Hparse. reflexivity.
Qed.

(** C2. At a response that is the JSON literal [null] the parse succeeds
    and reading [connObj.status] throws, outside both [try] blocks and
    inside the [async] executor: the promise of [getConnectionDetail] is
    neither resolved nor rejected, and no DeveloperError is made.  Only
    the captured output is logged, above level zero. *)
Theorem getConnectionDetail_null_response (traceLevel : Z)
    (alias : option string) (conn : string) :
  getOrgDetail alias = Resolved conn ->
  JSON_parse conn = Return JNull ->
  getConnectionDetail traceLevel alias
  = (Pending,
     if 0 <? traceLevel
     then [mkLog LevelInfo "captured result: %o" [JStr conn]] else [])
  /\ (forall result,
        fst (getConnectionDetail traceLevel alias) <> Resolved result)
  /\ (forall err,
        fst (getConnectionDetail traceLevel alias) <> Rejected err).
Proof.
  intros Hout Hparse.
  assert (Hrun : getConnectionDetail traceLevel alias
                 = (Pending,
                    if 0 <? traceLevel
                    then [mkLog LevelInfo "captured result: %o" [JStr conn]]
                    else []))
    by (unfold getConnectionDetail; now rewrite Hout, Hparse).
  rewrite Hrun. repeat split; discriminate.
Qed.


(** Every rejection of [getConnectionDetail] carries a DeveloperError. *)
Lemma getConnectionDetail_rejects_classified (traceLevel : Z)
    (alias : option string) (e : Thrown) (logged : list LogLine) :
  getConnectionDetail traceLevel alias = (Rejected e, logged) ->
  exists d, e = ThrownDeveloperError d.
Proof.
  unfold getConnectionDetail, getOrgDetail.
  destruct (getOrgDetail_handlers _ _ _ _) as [conn | e' |] eqn:Hout.
  - destruct (JSON_parse conn) as [connObj | err].
    + destruct connObj; cbn; try (intros [= <-]; eauto); try discriminate.
      destruct (strict_eq_zero _); cbn; [discriminate |].
      intros [= <- _]. eauto.
    + intros [= <- _]. eauto.
  - intros [= <- _]. eapply handlers_reject_classified. exact Hout.
  - discriminate.
Qed.

(** Why [getConnectionDetail] rejects: the child could not be launched,
    its output is not JSON, or the response's status is not zero. *)
Lemma getConnectionDetail_rejects_why (traceLevel : Z) (alias : option string)
    (e : Thrown) (logged : list LogLine) :
  getConnectionDetail traceLevel alias = (Rejected e, logged) ->
  getOrgDetail alias = Rejected e
  \/ (exists conn err,
        getOrgDetail alias = Resolved conn /\ JSON_parse conn = Throw err)
  \/ (exists conn connObj,
        getOrgDetail alias = Resolved conn /\ JSON_parse conn = Return connObj
        /\ nullish connObj = false /\ member connObj "status" <> JNum 0).
Proof.
  unfold getConnectionDetail.
  destruct (getOrgDetail alias) as [conn | e' |] eqn:Hout; try discriminate.
  - destruct (JSON_parse conn) as [connObj | err] eqn:Hparse.
    + intros Hreject. right. right. exists conn, connObj.
      repeat split; try (assumption || reflexivity).
      * destruct connObj; cbn in Hreject; try discriminate Hreject;
          reflexivity.
      * intros Hzero. unfold member in Hzero.
        destruct connObj; cbn in Hzero, Hreject; try discriminate.
        rewrite Hzero in Hreject. discriminate Hreject.
    + intros _. right. left. eauto.
  - intros [= <- _]. now left.
Qed.

(** C1. At a response that is the JSON literal [null] nothing reaches the
    [catch] of [getConnection]: its promise is never settled, so it does
    not resolve to [null], and no error is logged. *)
Theorem getConnection_null_response (traceLevel : Z) (alias : option string)
    (conn : string) :
  getOrgDetail alias = Resolved conn ->
  JSON_parse conn = Return JNull ->
  getConnection traceLevel alias
  = (Pending,
     if 0 <? traceLevel
     then [mkLog LevelInfo "captured result: %o" [JStr conn]] else [])
  /\ fst (getConnection traceLevel alias) <> Resolved None.
Proof.
  intros Hout Hparse.
  assert (Hrun : getConnection traceLevel alias
                 = (Pending,
                    if 0 <? traceLevel
                    then [mkLog LevelInfo "captured result: %o" [JStr conn]]
                    else [])).
  { unfold getConnection, getConnectionDetail. now rewrite Hout, Hparse. }
  rewrite Hrun. split; [reflexivity | discriminate].
Qed.

(** The lines of [log], level by level. *)
Lemma log_lines (d : DeveloperError.t) (traceLevel : Z) :
  error_logged (DeveloperError.log d traceLevel) (DeveloperError.message d)
    (DeveloperError.detailMessage d) (DeveloperError.stack d) traceLevel.
Proof.
  unfold error_logged. repeat split.
  - intros Hle. now apply log_silent.
  - now intros ->.
  - intros Hlt. now apply log_detail.
Qed.


(** What [getConnection] does with a resolved record that has properties:
    it hands the two options to the constructor. *)
Lemma getConnection_of_record (traceLevel : Z) (alias : option string)
    (info : JValue) (lg : list LogLine) :
  getConnectionDetail traceLevel alias = (Resolved info, lg) ->
  nullish info = false ->
  getConnection traceLevel alias
  = match
      JsForce_Connection {| serverUrl := member info "instanceUrl";
                            sessionId := member info "accessToken" |}
    with
    | Return connection => (Resolved (Some connection), lg)
    | Throw e =>
        (Resolved None,
         lg ++ DeveloperError.log (importError (ThrownError e)) traceLevel)
    end.
Proof.
  intros Hd Hn. unfold getConnection. rewrite Hd.
  destruct info; try discriminate Hn; reflexivity.
Qed.

(** C3. From a resolved result record, [getConnection] calls the
    constructor of jsforce with two options and nothing else: [serverUrl]
    is the record's [instanceUrl] and [sessionId] its [accessToken].  The
    connection the constructor returns is the one the promise resolves
    with; when the constructor throws there is no connection and the
    promise resolves with [null].  Two records that agree on these two
    members give the same outcome, whatever their other members. *)
Theorem getConnection_two_fields (traceLevel : Z) (alias : option string)
    (connectionInfo : JValue) (logged : list LogLine) :
  getConnectionDetail traceLevel alias = (Resolved connectionInfo, logged) ->
  nullish connectionInfo = false ->
  let options :=
    {| serverUrl := member connectionInfo "instanceUrl";
       sessionId := member connectionInfo "accessToken" |} in
  (forall connection,
     JsForce_Connection options = Return connection ->
     getConnection traceLevel alias = (Resolved (Some connection), logged))
  /\ (forall e,
        JsForce_Connection options = Throw e ->
        fst (getConnection traceLevel alias) = Resolved None)
  /\ forall traceLevel' alias' props props' logged',
       connectionInfo = JObj props ->
       getConnectionDetail traceLevel' alias' = (Resolved (JObj props'), logged') ->
       assoc "instanceUrl" props' = assoc "instanceUrl" props ->
       assoc "accessToken" props' = assoc "accessToken" props ->
       fst (getConnection traceLevel' alias')
       = fst (getConnection traceLevel alias).
Proof.
  intros Hinfo Hrecord options.
  pose proof (getConnection_of_record _ _ _ _ Hinfo Hrecord) as Hbuild.
  fold options in Hbuild.
  split; [| split].
  - intros connection Hmade. now rewrite Hbuild, Hmade.
  - intros e Hthrown. now rewrite Hbuild, Hthrown.
  - intros traceLevel' alias' props props' logged' -> Hd' Hurl Htoken.
    rewrite Hbuild, (getConnection_of_record _ _ _ _ Hd' eq_refl).
    unfold options, member. cbn [get_prop]. rewrite Hurl, Htoken.
    destruct (JsForce_Connection _); reflexivity.
Qed.

(** C10. [importError] gives back a DeveloperError unchanged and wraps any
    other error's message and stack under the detail [unhandled exception];
    applying it twice is applying it once.  As every rejection of
    [getConnectionDetail] is a DeveloperError, what [getConnection] logs
    for it is that error's own log, client message included. *)
Theorem importError_idempotent :
  (forall d, importError (ThrownDeveloperError d) = d)
  /\ (forall e,
        importError (ThrownError e)
        = DeveloperError.mk (JStr (Error.message e)) (JStr "unhandled exception")
            (JStr (Error.stack e)))
  /\ (forall err,
        importError (ThrownDeveloperError (importError err)) = importError err)
  /\ (forall traceLevel alias err logged,
        getConnectionDetail traceLevel alias = (Rejected err, logged) ->
        exists d,
          err = ThrownDeveloperError d
          /\ DeveloperError.message (importError err) = DeveloperError.message d
          /\ getConnection traceLevel alias
             = (Resolved None, logged ++ DeveloperError.log d traceLevel)).
Proof.
  repeat split; try reflexivity.
  intros traceLevel alias err logged Hreject.
  destruct (getConnectionDetail_rejects_classified _ _ _ _ Hreject) as [d ->].
  exists d. repeat split.
  unfold getConnection. now rewrite Hreject.
Qed.

End Resolution.

(** * JSON texts *)


(** ** Strings *)

Lemma append_cons (x : ascii) (a b : string) :
  String x a +:+ b = String x (a +:+ b).
Proof. reflexivity. Qed.

Lemma append_empty_l (b : string) : "" +:+ b = b.
Proof. reflexivity. Qed.

Lemma append_assoc (a b c : string) : (a +:+ b) +:+ c = a +:+ (b +:+ c).
Proof.
  induction a as [| x a IH]; [reflexivity |].
  rewrite !append_cons. now f_equal.
Qed.

Lemma append_empty_r (a : string) : a +:+ "" = a.
Proof.
  induction a as [| x a IH]; [reflexivity |].
  rewrite append_cons. now f_equal.
Qed.

Lemma length_append (a b : string) :
  String.length (a +:+ b) = (String.length a + String.length b)%nat.
Proof.
  induction a as [| x a IH]; [reflexivity |].
  rewrite append_cons. cbn. now f_equal.
Qed.

(** ** Numbers *)

Lemma read_digits_show (d : Decimal.uint) (rest : string) :
  digit_head rest = false ->
  read_digits (NilEmpty.string_of_uint d +:+ rest) = (d, rest).
Proof.
  intros Hrest.
  induction d; cbn [NilEmpty.string_of_uint];
    rewrite ?append_cons, ?append_empty_l; cbn [read_digits];
    try (rewrite IHd; reflexivity).
  destruct rest as [| c rest]; [reflexivity |].
  cbn in *. destruct (digit_of c); [discriminate | reflexivity].
Qed.











(** ** String literals *)





(** ** White space *)



(** ** Values *)

Lemma value_start_facts (c : ascii) :
  value_start c = true ->
  is_ws c = false /\ Ascii.eqb c "]" = false /\ Ascii.eqb c "}" = false
  /\ Nat.eqb (nat_of_ascii c) 239 = false.
Proof.
  intros Hc.
  destruct c as [[] [] [] [] [] [] [] []];
    first [discriminate Hc | repeat split; reflexivity].
Qed.







Lemma skip_ws_value (text : string) :
  starts_value text -> skip_ws text = text.
Proof.
  intros (c & t & -> & Hc). cbn [skip_ws].
  now destruct (value_start_facts c Hc) as (-> & _).
Qed.







(** ** The order of own properties *)























(** ** Fuel *)

Lemma skip_ws_length (s : string) :
  (String.length (skip_ws s) <= String.length s)%nat.
Proof.
  induction s as [| c s IH]; [reflexivity |].
  cbn [skip_ws]. destruct (is_ws c); cbn [String.length]; lia.
Qed.

Lemma prepend_some (c : ascii) (r : option (string * string))
    (body rest : string) :
  prepend c r = Some (body, rest) ->
  exists body', r = Some (body', rest) /\ body = String c body'.
Proof.
  destruct r as [[body' rest'] |]; [| discriminate].
  intros [= <- <-]. eauto.
Qed.

Lemma prepend_text_some (t : string) (r : option (string * string))
    (body rest : string) :
  prepend_text t r = Some (body, rest) ->
  exists body', r = Some (body', rest).
Proof.
  destruct r as [[body' rest'] |]; [| discriminate].
  intros [= _ <-]. eauto.
Qed.

Lemma read_string_length (n : nat) :
  forall s body rest,
    (String.length s <= n)%nat ->
    read_string s = Some (body, rest) ->
    (String.length rest < String.length s)%nat.
Proof.
  induction n as [| n IH]; intros s body rest Hn Hread.
  - destruct s; [discriminate | cbn in Hn; lia].
  - destruct s as [| c s]; [discriminate |].
    cbn [read_string] in Hread. cbn [String.length] in *.
    destruct (Ascii.eqb c dquote).
    { injection Hread as _ <-. lia. }
    destruct (Ascii.eqb c backslash).
    + destruct s as [| e s]; [discriminate |].
      destruct (Ascii.eqb e "u").
      * destruct s as [| h1 [| h2 [| h3 [| h4 s]]]]; try discriminate.
        destruct (hex4_value h1 h2 h3 h4) as [u |]; [| discriminate].
        assert (Hsingle :
                  prepend_text (utf8 u) (read_string s) = Some (body, rest) ->
                  (String.length rest < String.length s)%nat).
        { intros (body' & Hs)%prepend_text_some.
          apply IH in Hs; [exact Hs | cbn [String.length] in Hn; lia]. }
        cbn [String.length] in *.
        destruct ((55296 <=? u) && (u <=? 56319));
          [| apply Hsingle in Hread; lia].
        destruct s as [| b1 [| b2 [| g1 [| g2 [| g3 [| g4 s']]]]]];
          try (apply Hsingle in Hread; cbn [String.length] in *; lia).
        destruct (Ascii.eqb b1 backslash && Ascii.eqb b2 "u");
          [| apply Hsingle in Hread; cbn [String.length] in *; lia].
        destruct (hex4_value g1 g2 g3 g4) as [v |];
          [| apply Hsingle in Hread; cbn [String.length] in *; lia].
        destruct ((56320 <=? v) && (v <=? 57343));
          [| apply Hsingle in Hread; cbn [String.length] in *; lia].
        apply prepend_text_some in Hread as (body' & Hread).
        cbn [String.length] in *. apply IH in Hread; lia.
      * destruct (unescape e); [| discriminate].
        apply prepend_some in Hread as (body' & Hread & _).
        cbn [String.length] in *. apply IH in Hread; lia.
    + destruct (Nat.ltb (nat_of_ascii c) 32); [discriminate |].
      apply prepend_some in Hread as (body' & Hread & _).
      apply IH in Hread; lia.
Qed.

Lemma read_digits_length (s : string) :
  (String.length (snd (read_digits s)) <= String.length s)%nat
  /\ (fst (read_digits s) <> Decimal.Nil ->
      String.length (snd (read_digits s)) < String.length s)%nat.
Proof.
  induction s as [| c s [IH1 IH2]]; [split; [reflexivity | contradiction] |].
  cbn [read_digits]. destruct (digit_of c).
  - destruct (read_digits s) as [ds rest']. cbn [fst snd String.length] in *.
    split; intros; lia.
  - cbn [fst snd]. split; [lia | contradiction].
Qed.

Lemma read_fraction_length (s : string) (fs : Decimal.uint) (rest : string) :
  read_fraction s = Some (fs, rest) ->
  (String.length rest <= String.length s)%nat.
Proof.
  destruct s as [| c s]; [now intros [= _ <-] |]. cbn [read_fraction].
  destruct (Ascii.eqb c "."); [| now intros [= _ <-]].
  pose proof (read_digits_length s) as [Hle _].
  destruct (read_digits s) as [ds rest']. cbn [snd] in Hle.
  destruct ds; try discriminate; intros [= _ <-]; cbn [String.length]; lia.
Qed.

Lemma read_exponent_length (s : string) (e : Z) (rest : string) :
  read_exponent s = Some (e, rest) ->
  (String.length rest <= String.length s)%nat.
Proof.
  destruct s as [| c s]; [now intros [= _ <-] |]. cbn [read_exponent].
  destruct (Ascii.eqb c "e" || Ascii.eqb c "E"); [| now intros [= _ <-]].
  assert (Hdigits : forall t,
            (String.length t <= String.length s)%nat ->
            forall negative : bool,
              match read_digits t with
              | (Decimal.Nil, _) => None
              | (es, rest2) =>
                  Some (if negative then - Z.of_uint es else Z.of_uint es, rest2)
              end = Some (e, rest) ->
              (String.length rest <= String.length (String c s))%nat).
  { intros t Ht negative. pose proof (read_digits_length t) as [Hle _].
    destruct (read_digits t) as [es rest2]. cbn [snd] in Hle.
    destruct es; try discriminate; intros [= _ <-]; cbn [String.length]; lia. }
  destruct s as [| sign s']; [apply (Hdigits "" (Nat.le_refl _) false) |].
  assert (Hshort : (String.length s' <= String.length (String sign s'))%nat)
    by (cbn [String.length]; lia).
  destruct (Ascii.eqb sign "-"); [exact (Hdigits s' Hshort true) |].
  destruct (Ascii.eqb sign "+"); [exact (Hdigits s' Hshort false) |].
  exact (Hdigits (String sign s') (Nat.le_refl _) false).
Qed.

Lemma read_unsigned_length (negative : bool) (s : string) (v : JValue)
    (rest : string) :
  read_unsigned negative s = Some (v, rest) ->
  (String.length rest < String.length s)%nat.
Proof.
  unfold read_unsigned. pose proof (read_digits_length s) as [_ Hlt].
  destruct (read_digits s) as [ds rest0]. cbn [fst snd] in Hlt.
  assert (Hmore : ds <> Decimal.Nil ->
            match read_fraction rest0 with
            | Some (fs, rest1) =>
                match read_exponent rest1 with
                | Some (exponent, rest2) =>
                    Some (of_decimal negative (Z.of_uint (Decimal.app ds fs))
                            (exponent - Z.of_nat (Decimal.nb_digits fs)),
                          rest2)
                | None => None
                end
            | None => None
            end = Some (v, rest) ->
            (String.length rest < String.length s)%nat).
  { intros Hds. specialize (Hlt Hds).
    destruct (read_fraction rest0) as [[fs rest1] |] eqn:Hf; [| discriminate].
    apply read_fraction_length in Hf.
    destruct (read_exponent rest1) as [[exponent rest2] |] eqn:He;
      [| discriminate].
    apply read_exponent_length in He. intros [= _ <-]. lia. }
  destruct ds; try discriminate;
    (destruct (Decimal.uint_beq _ _); [| discriminate]);
    apply Hmore; discriminate.
Qed.

Lemma read_number_length (s : string) (v : JValue) (rest : string) :
  read_number s = Some (v, rest) ->
  (String.length rest < String.length s)%nat.
Proof.
  destruct s as [| c s]; [discriminate |]. cbn [read_number].
  destruct (Ascii.eqb c "-"); intros Hrun;
    apply read_unsigned_length in Hrun; cbn [String.length] in *; lia.
Qed.

Lemma strip_prefix_length (p s rest : string) :
  strip_prefix p s = Some rest ->
  (String.length rest <= String.length s)%nat.
Proof.
  revert s. induction p as [| a p IH]; intros s.
  - intros [= <-]. lia.
  - destruct s as [| b s]; [discriminate |]. cbn [strip_prefix].
    destruct (Ascii.eqb a b); [| discriminate].
    intros Hs. apply IH in Hs. cbn [String.length]. lia.
Qed.

Lemma skip_ws_tail (s : string) (c : ascii) (t : string) :
  skip_ws s = String c t -> (String.length t < String.length s)%nat.
Proof.
  intros Hskip. pose proof (skip_ws_length s) as Hlen.
  rewrite Hskip in Hlen. cbn [String.length] in Hlen. lia.
Qed.

Ltac refuel fuel :=
  match goal with
  | Hfuel : (_ <= fuel)%nat |- _ =>
      destruct fuel as [| fuel]; [exfalso; cbn [String.length] in *; lia |]
  end.

Lemma read_adequate (fuel' : nat) :
  adequate read_value fuel'
  /\ (forall acc, adequate (fun fuel s => read_elements fuel s acc) fuel')
  /\ (forall acc, adequate (fun fuel s => read_members fuel s acc) fuel').
Proof.
  induction fuel' as [| fuel' (IHv & IHe & IHm)];
    [repeat split; intros; discriminate |].
  split; [| split].
  - (* read_value *)
    intros s r rest. cbn [read_value].
    destruct (skip_ws s) as [| c t] eqn:Hskip; [discriminate |].
    pose proof (skip_ws_tail _ _ _ Hskip) as Ht.
    destruct (Ascii.eqb c "[") eqn:E1.
    { destruct (skip_ws t) as [| c' t'] eqn:Hskip'; [discriminate |].
      pose proof (skip_ws_tail _ _ _ Hskip') as Ht'.
      destruct (Ascii.eqb c' "]") eqn:E2.
      - intros [= <- <-]. split; [lia |]. intros fuel Hfuel. refuel fuel.
        cbn [read_value]. now rewrite Hskip, E1, Hskip', E2.
      - intros Hread. apply IHe in Hread as [Hlt Hany]. split; [lia |].
        intros fuel Hfuel. refuel fuel.
        cbn [read_value]. rewrite Hskip, E1, Hskip', E2. apply Hany. lia. }
    destruct (Ascii.eqb c "{") eqn:E2.
    { destruct (skip_ws t) as [| c' t'] eqn:Hskip'; [discriminate |].
      pose proof (skip_ws_tail _ _ _ Hskip') as Ht'.
      destruct (Ascii.eqb c' "}") eqn:E3.
      - intros [= <- <-]. split; [lia |]. intros fuel Hfuel. refuel fuel.
        cbn [read_value]. now rewrite Hskip, E1, E2, Hskip', E3.
      - intros Hread. apply IHm in Hread as [Hlt Hany]. split; [lia |].
        intros fuel Hfuel. refuel fuel.
        cbn [read_value]. rewrite Hskip, E1, E2, Hskip', E3. apply Hany. lia. }
    assert (Hleaf : forall leaf : option (JValue * string),
              leaf = Some (r, rest) ->
              (String.length rest <= String.length t)%nat ->
              (forall fuel, read_value (S fuel) s = leaf) ->
              (String.length rest < String.length s)%nat
              /\ forall fuel,
                   (String.length s - String.length rest <= fuel)%nat ->
                   read_value fuel s = Some (r, rest)).
    { intros leaf Hleaf Hlen Hsame. split; [lia |].
      intros fuel Hfuel. refuel fuel. now rewrite Hsame. }
    intros Hread. eapply Hleaf; [exact Hread | |].
    + destruct (Ascii.eqb c dquote).
      { destruct (read_string t) as [[body rest'] |] eqn:Hbody; [| discriminate].
        injection Hread as _ <-.
        apply (read_string_length _ _ _ _ (Nat.le_refl _)) in Hbody. lia. }
      destruct (Ascii.eqb c "n").
      { destruct (strip_prefix "ull" t) eqn:Hp; [| discriminate].
        injection Hread as _ <-. now apply strip_prefix_length in Hp. }
      destruct (Ascii.eqb c "t").
      { destruct (strip_prefix "rue" t) eqn:Hp; [| discriminate].
        injection Hread as _ <-. now apply strip_prefix_length in Hp. }
      destruct (Ascii.eqb c "f").
      { destruct (strip_prefix "alse" t) eqn:Hp; [| discriminate].
        injection Hread as _ <-. now apply strip_prefix_length in Hp. }
      apply read_number_length in Hread.
      cbn [String.length] in Hread. lia.
    + intros fuel. cbn [read_value]. now rewrite Hskip, E1, E2.
  - (* read_elements *)
    intros acc s r rest. cbn [read_elements].
    destruct (read_value fuel' s) as [[v r1] |] eqn:Hv; [| discriminate].
    apply IHv in Hv as [Hv Hvany].
    destruct (skip_ws r1) as [| c r'] eqn:Hskip; [discriminate |].
    pose proof (skip_ws_tail _ _ _ Hskip) as Hr'.
    destruct (Ascii.eqb c ",") eqn:E1.
    + intros Hread. apply IHe in Hread as [Hlt Hany]. split; [lia |].
      intros fuel Hfuel. refuel fuel. cbn [read_elements].
      rewrite Hvany by lia. rewrite Hskip, E1. apply Hany. lia.
    + destruct (Ascii.eqb c "]") eqn:E2; [| discriminate].
      intros [= <- <-]. split; [lia |].
      intros fuel Hfuel. refuel fuel. cbn [read_elements].
      rewrite Hvany by lia. now rewrite Hskip, E1, E2.
  - (* read_members *)
    intros acc s r rest. cbn [read_members].
    destruct (skip_ws s) as [| q t] eqn:Hskip; [discriminate |].
    pose proof (skip_ws_tail _ _ _ Hskip) as Ht.
    destruct (Ascii.eqb q dquote) eqn:Eq; [| discriminate].
    destruct (read_string t) as [[k r1] |] eqn:Hk; [| discriminate].
    pose proof (read_string_length _ _ _ _ (Nat.le_refl _) Hk) as Hr1.
    destruct (skip_ws r1) as [| colon r2] eqn:Hskip1; [discriminate |].
    pose proof (skip_ws_tail _ _ _ Hskip1) as Hr2.
    destruct (Ascii.eqb colon ":") eqn:Ec; [| discriminate].
    destruct (read_value fuel' r2) as [[v r3] |] eqn:Hv; [| discriminate].
    apply IHv in Hv as [Hv Hvany].
    destruct (skip_ws r3) as [| c r4] eqn:Hskip3; [discriminate |].
    pose proof (skip_ws_tail _ _ _ Hskip3) as Hr4.
    destruct (Ascii.eqb c ",") eqn:E1.
    + intros Hread. apply IHm in Hread as [Hlt Hany]. split; [lia |].
      intros fuel Hfuel. refuel fuel. cbn [read_members].
      rewrite Hskip, Eq, Hk, Hskip1, Ec. rewrite Hvany by lia.
      rewrite Hskip3, E1. apply Hany. lia.
    + destruct (Ascii.eqb c "}") eqn:E2; [| discriminate].
      intros [= <- <-]. split; [lia |].
      intros fuel Hfuel. refuel fuel. cbn [read_members].
      rewrite Hskip, Eq, Hk, Hskip1, Ec. rewrite Hvany by lia.
      now rewrite Hskip3, E1, E2.
Qed.

(** The fuel [parse] supplies is enough: whatever [read_value] can read
    with any fuel, it reads with this one. *)
Lemma parse_fuel_enough (fuel : nat) (s : string) (v : JValue) (rest : string) :
  read_value fuel s = Some (v, rest) ->
  read_value (S (String.length s)) s = Some (v, rest).
Proof.
  intros Hread. destruct (read_adequate fuel) as (Hv & _).
  apply Hv in Hread as [_ Hany]. apply Hany. lia.
Qed.

(** ** path.resolve *)

Lemma split_path_no_slash (s : string) :
  no_slash (fst (split_path s)) = true
  /\ Forall (fun seg => no_slash seg = true) (snd (split_path s)).
Proof.
  induction s as [| c s [Hseg Hsegs]]; [split; [reflexivity | constructor] |].
  cbn [split_path]. destruct (split_path s) as [seg segs]. cbn [fst snd] in *.
  destruct (Ascii.eqb c "/") eqn:Hc; cbn [fst snd].
  - split; [reflexivity | now constructor].
  - split; [| assumption]. cbn [no_slash]. now rewrite Hc.
Qed.

Lemma segments_no_slash (s : string) :
  Forall (fun seg => no_slash seg = true) (segments s).
Proof.
  unfold segments. pose proof (split_path_no_slash s) as [Hseg Hsegs].
  destruct (split_path s). now constructor.
Qed.

Lemma normalize_plain (segs stack : list string) :
  Forall (fun seg => no_slash seg = true) segs ->
  Forall plain stack ->
  Forall plain (normalize stack segs).
Proof.
  revert stack. induction segs as [| seg segs IH]; intros stack Hsegs Hstack.
  - cbn [normalize]. now apply Forall_rev.
  - apply Forall_cons in Hsegs as [Hseg Hsegs]. cbn [normalize].
    destruct (String.eqb_spec seg ""); [now apply IH |].
    destruct (String.eqb_spec seg "."); [now apply IH |].
    cbn [orb].
    destruct (String.eqb_spec seg "..").
    + apply IH; [assumption |]. destruct stack; [constructor |].
      now apply Forall_cons in Hstack as [_ Hstack].
    + apply IH; [assumption |]. constructor; [| assumption].
      repeat split; assumption.
Qed.

Lemma normalize_plain_id (segs stack : list string) :
  Forall plain segs -> normalize stack segs = rev stack ++ segs.
Proof.
  revert stack. induction segs as [| seg segs IH]; intros stack Hsegs.
  - cbn [normalize]. now rewrite app_nil_r.
  - apply Forall_cons in Hsegs as [(_ & H1 & H2 & H3) Hsegs]. cbn [normalize].
    destruct (String.eqb_spec seg ""); [contradiction |].
    destruct (String.eqb_spec seg "."); [contradiction |].
    destruct (String.eqb_spec seg ".."); [contradiction |].
    cbn [orb]. rewrite IH by assumption. cbn [rev].
    now rewrite <- app_assoc.
Qed.

Lemma split_path_append (seg s : string) :
  no_slash seg = true ->
  split_path (seg +:+ s)
  = (seg +:+ fst (split_path s), snd (split_path s)).
Proof.
  induction seg as [| c seg IH]; intros Hseg.
  - rewrite !append_empty_l. now destruct (split_path s).
  - cbn [no_slash] in Hseg. apply andb_prop in Hseg as [Hc Hseg].
    apply negb_true_iff in Hc.
    rewrite !append_cons. cbn [split_path]. rewrite IH, Hc by assumption.
    reflexivity.
Qed.

Lemma split_path_render (segs : list string) :
  Forall plain segs -> split_path (render segs) = ("", segs).
Proof.
  induction segs as [| seg segs IH]; intros Hsegs; [reflexivity |].
  apply Forall_cons in Hsegs as [(Hseg & _) Hsegs].
  cbn [render split_path].
  rewrite split_path_append, IH by assumption. cbn [fst snd].
  rewrite append_empty_r. reflexivity.
Qed.

Lemma canonical_absolute (cwd : string) (segs : list string) :
  Forall plain segs -> canonical cwd (absolute segs) = segs.
Proof.
  intros Hsegs. unfold canonical.
  destruct segs as [| seg segs]; [reflexivity |].
  cbn [absolute]. change (is_absolute (render (seg :: segs))) with true.
  cbn match. unfold segments. rewrite split_path_render by assumption.
  change (normalize [] ("" :: seg :: segs)) with (normalize [] (seg :: segs)).
  now rewrite normalize_plain_id.
Qed.

Lemma canonical_plain (cwd p : string) : Forall plain (canonical cwd p).
Proof.
  unfold canonical. apply normalize_plain; [apply segments_no_slash | constructor].
Qed.

Lemma canonical_resolve (cwd p : string) :
  canonical cwd (resolve cwd p) = canonical cwd p.
Proof. apply canonical_absolute, canonical_plain. Qed.

(** Resolving a resolved path changes nothing. *)
Lemma resolve_idempotent (cwd p : string) :
  resolve cwd (resolve cwd p) = resolve cwd p.
Proof. unfold resolve at 1. now rewrite canonical_resolve. Qed.

(** ** Trace level, and the file helpers *)

Section Helpers.
Context {H : Host}.

(** C9. Under any two trace levels every operation gives the same result
    (and leaves the same file system): [getConnectionDetail],
    [getConnection], [readJSON], [readFile], [writeFile], [listFiles].
    [getOrgDetail] does not read the trace level at all.  Only the logged
    lines can differ. *)
Theorem traceLevel_only_logging (t1 t2 : Z) :
  (forall alias,
     fst (getConnectionDetail t1 alias) = fst (getConnectionDetail t2 alias))
  /\ (forall alias, fst (getConnection t1 alias) = fst (getConnection t2 alias))
  /\ (forall fs p, fst (readJSON t1 fs p) = fst (readJSON t2 fs p))
  /\ (forall fs p, fst (readFile t1 fs p) = fst (readFile t2 fs p))
  /\ (forall fs p contents,
        fst (fst (writeFile t1 fs p contents)) = fst (fst (writeFile t2 fs p contents))
        /\ snd (writeFile t1 fs p contents) = snd (writeFile t2 fs p contents))
  /\ (forall fs p,
        fst (fst (listFiles t1 fs p)) = fst (fst (listFiles t2 fs p))
        /\ snd (listFiles t1 fs p) = snd (listFiles t2 fs p)).
Proof.
  assert (Hdetail : forall alias,
    fst (getConnectionDetail t1 alias) = fst (getConnectionDetail t2 alias)).
  { intros alias. unfold getConnectionDetail.
    destruct (getOrgDetail alias) as [conn | e |]; try reflexivity.
    destruct (JSON_parse conn); reflexivity. }
  split; [exact Hdetail |].
  repeat match goal with |- _ /\ _ => split end.
  - intros alias. specialize (Hdetail alias). unfold getConnection.
    destruct (getConnectionDetail t1 alias) as [o1 l1],
             (getConnectionDetail t2 alias) as [o2 l2].
    cbn [fst] in Hdetail. subst o2.
    destruct o1 as [info | e |]; try reflexivity.
    destruct (get_prop info "instanceUrl"); [| reflexivity].
    destruct (get_prop info "accessToken"); [| reflexivity].
    destruct (JsForce_Connection _); reflexivity.
  - intros fs p. unfold readJSON.
    destruct (fs_existsSync fs (path_resolve p)); [| reflexivity].
    cbn [negb]. destruct (fs_readJsonSync fs (path_resolve p)); reflexivity.
  - intros fs p. unfold readFile.
    destruct (fs_existsSync fs (path_resolve p)); [| reflexivity].
    cbn [negb]. destruct (fs_readFileSync fs (path_resolve p)); reflexivity.
  - intros fs p contents. unfold writeFile.
    destruct (fs_writeFileSync fs p (JSON_stringify contents)) as [[u | e] fs'];
      split; reflexivity.
  - intros fs p. unfold listFiles.
    destruct (fs_existsSync fs (path_resolve p)); [| split; reflexivity].
    cbn [negb].
    destruct (fs_ensureDirSync fs (path_resolve p)) as [[made | e] fs'];
      [| split; reflexivity].
    destruct (truthy made); [split; reflexivity |].
    destruct (fs_readdirSync fs' (path_resolve p)); split; reflexivity.
Qed.

(** The lines a helper leaves for an error it caught. *)
Lemma caught_logged (what path : string) (err : Error.t) (traceLevel : Z) :
  error_logged (DeveloperError.log (io_failure what path err) traceLevel)
    (JStr (what +:+ path)) (JStr (Error.message err)) (JStr (Error.stack err))
    traceLevel.
Proof. apply (log_lines (io_failure what path err)). Qed.

(** C6, as amended.  [readJSON], [readFile] and [writeFile] never raise,
    and [listFiles] does not whenever [fs.ensureDirSync] returns.  At a
    path whose target is missing, [readJSON], [readFile] and [listFiles]
    log one error and return [undefined]; [writeFile] checks nothing
    beforehand and after a successful write has logged nothing.  In all
    four, an error thrown by the wrapped call ([readJsonSync],
    [readFileSync], [writeFileSync], [readdirSync]) is caught and logged
    as a DeveloperError: no line below level zero, the line
    [Error occurred:] with the helper's message and the path at level
    zero, and above zero that message with the error's message and stack;
    the caller receives [undefined]. *)
Theorem file_helpers_swallow (traceLevel : Z) (fs : FS) (p : string) :
  let q := path_resolve p in
  (* readJSON *)
  (exists v lines, readJSON traceLevel fs p = (Return v, lines))
  /\ (fs_existsSync fs q = false ->
      readJSON traceLevel fs p
      = (Return JUndefined, [mkLog LevelError "File does not exist: %s" [JStr q]]))
  /\ (forall err,
        fs_existsSync fs q = true -> fs_readJsonSync fs q = Throw err ->
        exists lines,
          readJSON traceLevel fs p = (Return JUndefined, lines)
          /\ error_logged lines (JStr ("unable to read file: " +:+ q))
               (JStr (Error.message err)) (JStr (Error.stack err)) traceLevel)
  (* readFile *)
  /\ (exists v lines, readFile traceLevel fs p = (Return v, lines))
  /\ (fs_existsSync fs q = false ->
      readFile traceLevel fs p
      = (Return JUndefined, [mkLog LevelError "File does not exist: %s" [JStr q]]))
  /\ (forall err,
        fs_existsSync fs q = true -> fs_readFileSync fs q = Throw err ->
        exists lines,
          readFile traceLevel fs p = (Return JUndefined, lines)
          /\ error_logged lines (JStr ("unable to read file: " +:+ q))
               (JStr (Error.message err)) (JStr (Error.stack err)) traceLevel)
  (* listFiles *)
  /\ (fs_existsSync fs q = false ->
      listFiles traceLevel fs p
      = (Return JUndefined,
         [mkLog LevelError "Path does not exist: %s" [JStr q]], fs))
  /\ (forall made fs',
        fs_existsSync fs q = true ->
        fs_ensureDirSync fs q = (Return made, fs') ->
        exists v lines, listFiles traceLevel fs p = (Return v, lines, fs'))
  /\ (forall made fs' err,
        fs_existsSync fs q = true ->
        fs_ensureDirSync fs q = (Return made, fs') -> truthy made = false ->
        fs_readdirSync fs' q = Throw err ->
        exists lines,
          listFiles traceLevel fs p = (Return JUndefined, lines, fs')
          /\ error_logged lines (JStr ("unable to read directory: " +:+ q))
               (JStr (Error.message err)) (JStr (Error.stack err)) traceLevel)
  (* writeFile *)
  /\ (forall contents, exists lines fs',
        writeFile traceLevel fs p contents = (Return JUndefined, lines, fs'))
  /\ (forall contents err fs',
        fs_writeFileSync fs p (JSON_stringify contents) = (Throw err, fs') ->
        exists lines,
          writeFile traceLevel fs p contents = (Return JUndefined, lines, fs')
          /\ error_logged lines (JStr ("unable to write to file: " +:+ p))
               (JStr (Error.message err)) (JStr (Error.stack err)) traceLevel)
  /\ (forall contents fs',
        fs_writeFileSync fs p (JSON_stringify contents) = (Return tt, fs') ->
        writeFile traceLevel fs p contents = (Return JUndefined, [], fs')).
Proof.
  intros q. subst q.
  repeat match goal with |- _ /\ _ => split end.
  - unfold readJSON. destruct (fs_existsSync fs (path_resolve p)); cbn [negb]; eauto.
    destruct (fs_readJsonSync fs (path_resolve p)); eauto.
  - intros Hmissing. unfold readJSON. now rewrite Hmissing.
  - intros err Hthere Hfail. eexists. split; [| apply caught_logged].
    unfold readJSON. now rewrite Hthere, Hfail.
  - unfold readFile. destruct (fs_existsSync fs (path_resolve p)); cbn [negb]; eauto.
    destruct (fs_readFileSync fs (path_resolve p)); eauto.
  - intros Hmissing. unfold readFile. now rewrite Hmissing.
  - intros err Hthere Hfail. eexists. split; [| apply caught_logged].
    unfold readFile. now rewrite Hthere, Hfail.
  - intros Hmissing. unfold listFiles. now rewrite Hmissing.
  - intros made fs' Hthere Hdir. unfold listFiles. rewrite Hthere, Hdir.
    cbn [negb]. destruct (truthy made); eauto.
    destruct (fs_readdirSync fs' (path_resolve p)); eauto.
  - intros made fs' err Hthere Hdir Hfalsy Hfail.
    eexists. split; [| apply caught_logged].
    unfold listFiles. now rewrite Hthere, Hdir, Hfalsy, Hfail.
  - intros contents. unfold writeFile.
    destruct (fs_writeFileSync fs p (JSON_stringify contents)) as [[u | e] fs'];
      eauto.
  - intros contents err fs' Hfail. eexists. split; [| apply caught_logged].
    unfold writeFile. now rewrite Hfail.
  - intros contents fs' Hok. unfold writeFile. now rewrite Hok.
Qed.

End Helpers.

(** ** Writing, then reading back, on the reference host *)

(** Where the system arrives is where [path.resolve] points. *)
Lemma walk_normalize (disk : gmap string Entry) (syscall p : string)
    (segs : list string) :
  forall stack stack' name,
    walk disk syscall p stack segs = Return (stack', Some name) ->
    normalize stack segs = rev (name :: stack').
Proof.
  induction segs as [| seg rest IH]; intros stack stack' name;
    [discriminate |].
  cbn [walk normalize].
  destruct (String.eqb seg "" || String.eqb seg "."); [apply IH |].
  destruct (String.eqb seg ".."); [apply IH |].
  destruct rest as [| seg' rest].
  - intros [= <- <-]. reflexivity.
  - destruct (entry_at disk (absolute (rev (seg :: stack)))) as [[content |] |];
      try discriminate.
    apply IH.
Qed.

Lemma writeFileSync_done (cwd : string) (disk disk' : gmap string Entry)
    (p : string) (data : JValue) :
  writeFileSync cwd disk p data = (Return tt, disk') ->
  exists text,
    data = JStr text
    /\ disk' = <[resolve cwd p := RegularFile text]> disk
    /\ String.eqb (resolve cwd p) "/" = false.
Proof.
  unfold writeFileSync. destruct data as [| | b | n | text | l | l | x];
    try discriminate.
  intros Hwrite. exists text. split; [reflexivity |].
  destruct (String.eqb p ""); [discriminate |].
  set (segs := segments (if is_absolute p then p else cwd +:+ "/" +:+ p)) in *.
  destruct (walk disk "open" p [] (strip_slash segs))
    as [[stack [name |]] | err] eqn:Hwalk; try discriminate.
  destruct (bool_decide_reflect (strip_slash segs = segs)) as [Hsame |];
    [| discriminate].
  rewrite Hsame in Hwalk. apply walk_normalize in Hwalk.
  assert (Htarget : absolute (rev (name :: stack)) = resolve cwd p)
    by (unfold resolve, canonical; fold segs; now rewrite Hwalk).
  rewrite Htarget in Hwrite. unfold entry_at in Hwrite.
  destruct (String.eqb (resolve cwd p) "/") eqn:Hroot; [discriminate |].
  split; [| reflexivity].
  destruct (disk !! resolve cwd p) as [[content |] |]; congruence.
Qed.

Lemma readFileSync_written (cwd : string) (disk : gmap string Entry)
    (p text : string) :
  String.eqb (resolve cwd p) "/" = false ->
  let disk' := <[resolve cwd p := RegularFile text]> disk in
  existsSync cwd disk' (resolve cwd p) = true
  /\ readFileSync cwd disk' p = Return text
  /\ readFileSync cwd disk' (resolve cwd p) = Return text.
Proof.
  intros Hroot disk'. unfold existsSync, readFileSync.
  rewrite resolve_idempotent. unfold entry_at. rewrite Hroot.
  unfold disk'. rewrite lookup_insert_eq. auto.
Qed.



Lemma length_escape_char (c : ascii) :
  (1 <= String.length (escape_char c))%nat.
Proof. destruct c as [[] [] [] [] [] [] [] []]; cbv; lia. Qed.

Lemma length_escape (s : string) :
  (String.length s <= String.length (escape s))%nat.
Proof.
  assert (Hall : forall n s,
            (String.length s <= n)%nat ->
            (String.length s <= String.length (escape s))%nat).
  { clear s. induction n as [| n IH]; intros s Hn.
    - destruct s; [reflexivity | cbn in Hn; lia].
    - destruct s as [| a rest]; [reflexivity |].
      pose proof (length_escape_char a) as Ha.
      cbn [String.length] in Hn.
      pose proof (IH rest ltac:(lia)) as Hrest.
      cbn [escape]. destruct rest as [| b [| c rest']];
        try (rewrite length_append; cbn [String.length] in *; lia).
      destruct (surrogate a b c);
        [| rewrite length_append; cbn [String.length] in *; lia].
      cbn [String.length] in Hn.
      pose proof (IH rest' ltac:(lia)).
      rewrite length_append. cbn [String.length hex4]. lia. }
  now apply (Hall (String.length s)).
Qed.

Lemma QuoteJSONString_longer (s : string) : QuoteJSONString s <> s.
Proof.
  intros Heq. apply (f_equal String.length) in Heq.
  unfold QuoteJSONString in Heq. cbn [String.length] in Heq.
  rewrite length_append in Heq. pose proof (length_escape s).
  cbn [String.length] in Heq. lia.
Qed.





(** * Runs on the worked host *)

(** The examples of the specification, evaluated. *)

Example connection_built :
  @getConnection demo_host 0 (Some "dev")
  = (Resolved (Some {| serverUrl := JStr "https://x"; sessionId := JStr "tok" |}),
     []).
Proof. reflexivity. Qed.

Example resolution_failed_logged :
  @getConnection demo_host 0 (Some "gone")
  = (Resolved None,
     [logger_error "Error occurred:%s" [JStr "Unable to find connection:gone"]]).
Proof. reflexivity. Qed.

Example tool_missing :
  @getConnection demo_host 0 None
  = (Resolved None,
     [logger_error "Error occurred:%s"
        [JStr "Error occurred while asking the salesforce cli for alias:default, is the salesforce cli installed?"]]).
Proof. reflexivity. Qed.

Example readJSON_missing :
  @readJSON demo_host 0 demo_disk "absent.json"
  = (Return JUndefined,
     [logger_error "File does not exist: %s" [JStr "/repl/absent.json"]]).
Proof. reflexivity. Qed.

(** A response that is the literal [null] parses, and then nothing
    settles the promise. *)
Example null_response_pending :
  @getConnectionDetail
    (reference_host "/repl" (fun _ _ => [StdoutData "null"; StdoutClose JUndefined]))
    0 None
  = (Pending, []).
Proof. reflexivity. Qed.

(** A record whose [instanceUrl] is a number: the constructor of jsforce
    throws, inside the [try], and the promise resolves with [null]. *)
Example constructor_throws :
  @getConnection
    (reference_host "/repl"
       (fun _ _ =>
          [StdoutData
             (json_text "{'status':0,'result':{'instanceUrl':5,'accessToken':'tok'}}");
           StdoutClose JUndefined]))
    0 None
  = (Resolved None,
     [logger_error "Error occurred:%s"
        [JStr "options.serverUrl.split is not a function"]]).
Proof. reflexivity. Qed.

(** An [error] event with no [close] of stdout after it settles nothing. *)
Example error_without_close_pending :
  @getOrgDetail (reference_host "/repl" (fun _ _ => [ProcError spawn_ENOENT])) None
  = Pending.
Proof. reflexivity. Qed.

(** [listFiles] on a regular file: [ensureDirSync] throws outside the
    [try], so the exception reaches the caller. *)
Example listFiles_regular_file :
  @listFiles demo_host 0 demo_disk "notes.txt"
  = (Throw (EEXIST "mkdir" "/repl/notes.txt"), [], demo_disk).
Proof. reflexivity. Qed.

(** ** Instances of the theorems *)

Lemma getOrgDetail_tool_unavailable_witness :
  @getOrgDetail demo_host (Some "prod")
  = Rejected (ThrownDeveloperError (DeveloperError.mk
      (JStr "Error occurred while asking the salesforce cli for alias:prod, is the salesforce cli installed?")
      (JStr "spawn sfdx ENOENT") (JStr "Error: spawn sfdx ENOENT"))).
Proof.
  exact (proj1 (@getOrgDetail_tool_unavailable demo_host (Some "prod")
                  [] [] [] spawn_ENOENT JUndefined eq_refl eq_refl eq_refl)).
Defined.

Lemma getConnectionDetail_malformed_witness :
  fst (@getConnectionDetail demo_host 1 (Some "garbled"))
  = Rejected (ThrownDeveloperError (DeveloperError.mk
      (JStr "Unable to get connection:garbled")
      (JStr (Error.message SyntaxError)) (JStr (Error.stack SyntaxError)))).
Proof.
  exact (@getConnectionDetail_malformed demo_host 1 (Some "garbled")
           "sfdx: unexpected output" SyntaxError eq_refl eq_refl).
Defined.


Lemma getConnectionDetail_null_response_witness :
  @getConnectionDetail
    (reference_host "/repl" (fun _ _ => [StdoutData "null"; StdoutClose JUndefined]))
    1 (Some "dev")
  = (Pending, [mkLog LevelInfo "captured result: %o" [JStr "null"]]).
Proof.
  exact (proj1 (@getConnectionDetail_null_response
                  (reference_host "/repl"
                     (fun _ _ => [StdoutData "null"; StdoutClose JUndefined]))
                  1 (Some "dev") "null" eq_refl eq_refl)).
Defined.

Lemma getConnection_null_response_witness :
  @getConnection
    (reference_host "/repl" (fun _ _ => [StdoutData "null"; StdoutClose JUndefined]))
    0 (Some "dev")
  = (Pending, []).
Proof.
  exact (proj1 (@getConnection_null_response
                  (reference_host "/repl"
                     (fun _ _ => [StdoutData "null"; StdoutClose JUndefined]))
                  0 (Some "dev") "null" eq_refl eq_refl)).
Defined.


Lemma getConnection_two_fields_witness :
  @getConnection demo_host 0 (Some "dev")
  = (Resolved (Some {| serverUrl := JStr "https://x"; sessionId := JStr "tok" |}),
     []).
Proof.
  exact (proj1 (@getConnection_two_fields demo_host 0 (Some "dev") _ _
                  eq_refl eq_refl) _ eq_refl).
Defined.

Lemma importError_idempotent_witness :
  exists d,
    ThrownDeveloperError (DeveloperError.mk
      (JStr "Unable to find connection:gone") (JStr "no such org") (JStr "..."))
    = ThrownDeveloperError d
    /\ DeveloperError.message (importError (ThrownDeveloperError (DeveloperError.mk
         (JStr "Unable to find connection:gone") (JStr "no such org") (JStr "..."))))
       = DeveloperError.message d
    /\ @getConnection demo_host 0 (Some "gone")
       = (Resolved None, [] ++ DeveloperError.log d 0).
Proof.
  exact (proj2 (proj2 (proj2 (@importError_idempotent demo_host)))
           0 (Some "gone") _ _ eq_refl).
Defined.

Lemma file_helpers_swallow_witness :
  @readFile demo_host 1 demo_disk "/repl"
  = (Return JUndefined,
     [mkLog LevelError ("Error occurred:%s " +:+ nl +:+ " %s " +:+ nl +:+ " %o")
        [JStr "unable to read file: /repl";
         JStr (Error.message (EISDIR "read" "/repl"));
         JStr (Error.stack (EISDIR "read" "/repl"))]]).
Proof.
  destruct (proj1 (proj2 (proj2 (proj2 (proj2 (proj2
              (@file_helpers_swallow demo_host 1 demo_disk "/repl"))))))
              (EISDIR "read" "/repl") eq_refl eq_refl)
    as (lines & Hrun & _ & _ & Hlines).
  rewrite Hrun, (Hlines eq_refl). reflexivity.
Defined.



(** ** Where the specification says more than the code does *)

(** C6, as stated, fails for [writeFile]: at a path whose target is
    missing it logs no error; it creates the file. *)
Lemma writeFile_missing_target_no_error :
  @fs_existsSync demo_host demo_disk (@path_resolve demo_host "out.json") = false
  /\ snd (fst (@writeFile demo_host 0 demo_disk "out.json" demo_value)) = []
  /\ @fs_existsSync demo_host
       (snd (@writeFile demo_host 0 demo_disk "out.json" demo_value))
       (@path_resolve demo_host "out.json")
     = true.
Proof. repeat split. Qed.

(** C8, as stated, fails for [undefined]: [JSON.stringify] gives no text,
    and nothing is written. *)
Lemma writeFile_undefined_no_text :
  JSON_stringify JUndefined = JUndefined
  /\ snd (@writeFile demo_host 0 demo_disk "out.json" JUndefined) = demo_disk
  /\ @fs_existsSync demo_host
       (snd (@writeFile demo_host 0 demo_disk "out.json" JUndefined))
       (@path_resolve demo_host "out.json")
     = false.
Proof. repeat split. Qed.


(** * Further properties *)

(** ** The child process *)

Section Process.
Context {H : Host}.

Lemma handlers_no_close (alias : option string) (events : list ProcEvent) :
  forallb (fun ev => negb (is_close ev)) events = true ->
  forall results streamError,
    getOrgDetail_handlers alias events results streamError = Pending.
Proof.
  induction events as [| ev events IH]; intros Hopen results streamError;
    [reflexivity |].
  cbn [forallb] in Hopen. apply andb_prop in Hopen as [Hev Hopen].
  destruct ev; cbn in Hev |- *; try discriminate; now apply IH.
Qed.

Lemma handlers_settle_at_close (alias : option string) (events : list ProcEvent) :
  forall results streamError,
    getOrgDetail_handlers alias events results streamError = Pending ->
    forallb (fun ev => negb (is_close ev)) events = true.
Proof.
  induction events as [| [data | data | err | code] events IH];
    intros results streamError; cbn [getOrgDetail_handlers forallb is_close negb];
    try reflexivity; try (intros Hp; cbn [andb]; now apply IH in Hp).
  destruct streamError; discriminate.
Qed.

(** X1. The promise of [getOrgDetail] is settled by the close of stdout and
    by nothing else: it stays pending exactly when the child never closes
    stdout, whatever data and errors arrive; [getConnectionDetail] and
    [getConnection] then stay pending too, and nothing is logged. *)
Theorem pending_without_close (alias : option string) :
  (getOrgDetail alias = Pending
   <-> forallb (fun ev => negb (is_close ev))
         (childProcess_spawn "sfdx" (orgDetail_args alias)) = true)
  /\ (forallb (fun ev => negb (is_close ev))
        (childProcess_spawn "sfdx" (orgDetail_args alias)) = true ->
      forall traceLevel,
        getConnectionDetail traceLevel alias = (Pending, [])
        /\ getConnection traceLevel alias = (Pending, [])).
Proof.
  assert (Hiff : getOrgDetail alias = Pending
                 <-> forallb (fun ev => negb (is_close ev))
                       (childProcess_spawn "sfdx" (orgDetail_args alias)) = true).
  { unfold getOrgDetail. split.
    - apply handlers_settle_at_close.
    - intros Hopen. now apply handlers_no_close. }
  split; [exact Hiff |]. intros Hopen traceLevel.
  apply Hiff in Hopen.
  assert (Hdetail : getConnectionDetail traceLevel alias = (Pending, []))
    by (unfold getConnectionDetail; now rewrite Hopen).
  split; [exact Hdetail |]. unfold getConnection. now rewrite Hdetail.
Qed.

Lemma handlers_captured (alias : option string) (before after : list ProcEvent)
    (code : JValue) :
  forallb (fun ev => negb (is_close ev || is_error ev)) before = true ->
  forall results,
    getOrgDetail_handlers alias (before ++ StdoutClose code :: after) results None
    = Resolved (results +:+ captured before).
Proof.
  induction before as [| ev before IH]; intros Hquiet results.
  - cbn [app getOrgDetail_handlers captured]. now rewrite append_empty_r.
  - cbn [forallb] in Hquiet. apply andb_prop in Hquiet as [Hev Hquiet].
    destruct ev as [data | data | err | code']; cbn in Hev; try discriminate;
      cbn [app getOrgDetail_handlers captured]; rewrite IH by assumption;
      now rewrite append_assoc.
Qed.

(** X2. With no error event before stdout closes, [getOrgDetail] resolves
    with every chunk received until then, from stdout and from stderr
    alike, in the order of arrival; what the child delivers after the
    close is ignored. *)
Theorem getOrgDetail_merges_streams (alias : option string)
    (before after : list ProcEvent) (code : JValue) :
  childProcess_spawn "sfdx" (orgDetail_args alias)
  = before ++ StdoutClose code :: after ->
  forallb (fun ev => negb (is_close ev || is_error ev)) before = true ->
  getOrgDetail alias = Resolved (captured before).
Proof.
  intros Hspawn Hquiet. unfold getOrgDetail. rewrite Hspawn.
  now rewrite handlers_captured, append_empty_l.
Qed.

Lemma handlers_empty_alias (events : list ProcEvent) (results : string)
    (streamError : option Error.t) :
  getOrgDetail_handlers (Some "") events results streamError
  = getOrgDetail_handlers None events results streamError.
Proof.
  revert results streamError.
  induction events as [| [data | data | err | code] events IH];
    intros results streamError; cbn [getOrgDetail_handlers]; auto.
Qed.

(** X3. An empty alias is no alias: the same command is spawned, and the
    three resolution steps give what they give for an absent alias. *)
Theorem empty_alias_is_default (traceLevel : Z) :
  orgDetail_args (Some "") = orgDetail_args None
  /\ getOrgDetail (Some "") = getOrgDetail None
  /\ getConnectionDetail traceLevel (Some "") = getConnectionDetail traceLevel None
  /\ getConnection traceLevel (Some "") = getConnection traceLevel None.
Proof.
  assert (Hout : getOrgDetail (Some "") = getOrgDetail None)
    by apply handlers_empty_alias.
  assert (Hdetail : getConnectionDetail traceLevel (Some "")
                    = getConnectionDetail traceLevel None).
  { unfold getConnectionDetail. rewrite Hout. reflexivity. }
  repeat split; try assumption.
  unfold getConnection. now rewrite Hdetail.
Qed.

End Process.

(** ** Responses that are not records, and what gets logged *)

Section Responses.
Context {H : Host}.

(** The line [getConnectionDetail] logs once the output is captured. *)
Lemma getConnectionDetail_logged (traceLevel : Z) (alias : option string) :
  snd (getConnectionDetail traceLevel alias)
  = match getOrgDetail alias with
    | Resolved conn =>
        if ERROR_LEVEL_BASIC <? traceLevel
        then [logger_info "captured result: %o" [JStr conn]] else []
    | _ => []
    end.
Proof.
  unfold getConnectionDetail.
  destruct (getOrgDetail alias) as [conn | e |]; try reflexivity.
  destruct (JSON_parse conn); reflexivity.
Qed.


(** X5. At a trace level below zero [getConnection] logs nothing at all,
    whatever happens. *)
Theorem getConnection_silent (traceLevel : Z) (alias : option string) :
  traceLevel <= ERROR_LEVEL_NONE ->
  snd (getConnection traceLevel alias) = [].
Proof.
  intros Hsilent.
  pose proof (getConnectionDetail_logged traceLevel alias) as Hlogged.
  assert (Hnone : snd (getConnectionDetail traceLevel alias) = []).
  { rewrite Hlogged. destruct (getOrgDetail alias); try reflexivity.
    unfold ERROR_LEVEL_BASIC, ERROR_LEVEL_NONE in *.
    destruct (Z.ltb_spec 0 traceLevel); [lia | reflexivity]. }
  unfold getConnection.
  destruct (getConnectionDetail traceLevel alias) as [[info | e |] lg];
    cbn [snd] in Hnone; subst lg; cbn [snd app].
  - destruct (get_prop info "instanceUrl");
      [destruct (get_prop info "accessToken");
       [destruct (JsForce_Connection _) |] |];
      cbn [snd app]; try reflexivity; now apply log_silent.
  - now apply log_silent.
  - reflexivity.
Qed.

(** X6. The captured output, access token included, is logged only above
    trace level zero.  At level zero [getConnectionDetail] logs nothing, a
    [getConnection] that yields a connection logs nothing, and one that
    fails on a rejection logs one error line holding the client message
    alone: no detail, no stack. *)
Theorem basic_level_log (alias : option string) :
  (forall traceLevel,
     traceLevel <= ERROR_LEVEL_BASIC ->
     snd (getConnectionDetail traceLevel alias) = [])
  /\ (forall c,
        fst (getConnection ERROR_LEVEL_BASIC alias) = Resolved (Some c) ->
        snd (getConnection ERROR_LEVEL_BASIC alias) = [])
  /\ (forall err logged,
        getConnectionDetail ERROR_LEVEL_BASIC alias = (Rejected err, logged) ->
        snd (getConnection ERROR_LEVEL_BASIC alias)
        = [logger_error "Error occurred:%s"
             [DeveloperError.message (importError err)]]).
Proof.
  assert (Hquiet : forall traceLevel,
            traceLevel <= ERROR_LEVEL_BASIC ->
            snd (getConnectionDetail traceLevel alias) = []).
  { intros traceLevel Hle. rewrite getConnectionDetail_logged.
    destruct (getOrgDetail alias); try reflexivity.
    unfold ERROR_LEVEL_BASIC in *.
    destruct (Z.ltb_spec 0 traceLevel); [lia | reflexivity]. }
  split; [exact Hquiet |].
  specialize (Hquiet ERROR_LEVEL_BASIC (Z.le_refl _)).
  split.
  - intros c. unfold getConnection.
    destruct (getConnectionDetail ERROR_LEVEL_BASIC alias) as [[info | e |] lg];
      cbn [snd] in Hquiet; subst lg; try discriminate.
    destruct (get_prop info "instanceUrl");
      [destruct (get_prop info "accessToken");
       [destruct (JsForce_Connection _) |] |]; try discriminate.
    reflexivity.
  - intros err logged Hreject. unfold getConnection.
    rewrite Hreject in Hquiet |- *. cbn [snd] in Hquiet. subst logged.
    reflexivity.
Qed.

(** X7. A response with status zero and no [result] (or a [null] one)
    resolves [getConnectionDetail] with that empty value; [getConnection]
    then fails reading [instanceUrl] of it, and yields [null] after
    logging the TypeError as an unhandled exception. *)
Theorem missing_result_yields_null (traceLevel : Z) (alias : option string)
    (conn : string) (props : list (string * JValue)) :
  getOrgDetail alias = Resolved conn ->
  JSON_parse conn = Return (JObj props) ->
  assoc "status" props = Some (JNum 0) ->
  nullish (default JUndefined (assoc "result" props)) = true ->
  let result := default JUndefined (assoc "result" props) in
  let typeError := TypeError_read result "instanceUrl" in
  fst (getConnectionDetail traceLevel alias) = Resolved result
  /\ getConnection traceLevel alias
     = (Resolved None,
        snd (getConnectionDetail traceLevel alias)
        ++ DeveloperError.log (DeveloperError.mk
             (JStr (Error.message typeError)) (JStr "unhandled exception")
             (JStr (Error.stack typeError))) traceLevel).
Proof.
  intros Hout Hparse Hstatus Hempty result typeError.
  assert (Hdetail : fst (getConnectionDetail traceLevel alias) = Resolved result).
  { unfold getConnectionDetail. rewrite Hout, Hparse. cbn. now rewrite Hstatus. }
  split; [exact Hdetail |]. unfold getConnection.
  destruct (getConnectionDetail traceLevel alias) as [o lg].
  cbn [fst snd] in *. subst o typeError result.
  destruct (default JUndefined (assoc "result" props));
    try discriminate Hempty; reflexivity.
Qed.



(** X9. What [getConnectionDetail] yields, read off the child's output: it
    resolves, with the response's [result], exactly when the output parses
    to a value with properties whose [status] is the number zero; it is
    pending exactly when [getOrgDetail] is, or when the output parses to
    [null] (for a parser that can give it, [undefined]); in every other
    case it rejects. *)
Theorem getConnectionDetail_outcomes (traceLevel : Z) (alias : option string) :
  (forall result,
     fst (getConnectionDetail traceLevel alias) = Resolved result
     <-> exists conn connObj,
           getOrgDetail alias = Resolved conn
           /\ JSON_parse conn = Return connObj
           /\ nullish connObj = false
           /\ member connObj "status" = JNum 0
           /\ result = member connObj "result")
  /\ (fst (getConnectionDetail traceLevel alias) = Pending
      <-> getOrgDetail alias = Pending
          \/ exists conn connObj,
               getOrgDetail alias = Resolved conn
               /\ JSON_parse conn = Return connObj
               /\ nullish connObj = true)
  /\ ((exists err, fst (getConnectionDetail traceLevel alias) = Rejected err)
      <-> (exists err, getOrgDetail alias = Rejected err)
          \/ (exists conn err,
                getOrgDetail alias = Resolved conn
                /\ JSON_parse conn = Throw err)
          \/ (exists conn connObj,
                getOrgDetail alias = Resolved conn
                /\ JSON_parse conn = Return connObj
                /\ nullish connObj = false
                /\ member connObj "status" <> JNum 0)).
Proof.
  assert (Hzero : forall v, strict_eq_zero v = true <-> v = JNum 0).
  { intros v. split; [| now intros ->].
    destruct v as [| | b | [| p | p] | s | l | l | x]; cbn; congruence. }
  unfold getConnectionDetail.
  destruct (getOrgDetail alias) as [conn | e |]; cbn [fst].
  - destruct (JSON_parse conn) as [connObj | err] eqn:Hparse; cbn [fst].
    + destruct (nullish connObj) eqn:Hnull.
      * assert (Hrun : forall k : JValue -> Settled JValue,
                  in_executor (get_prop connObj "status") k = Pending)
          by (intros k; destruct connObj; try discriminate Hnull; reflexivity).
        rewrite Hrun. split; [| split].
        -- intros result. split; [discriminate |].
           intros (c & o & [= <-] & Ho & Hfalse & _). congruence.
        -- split; [| reflexivity]. intros _. right. eauto.
        -- split; [intros (err & Herr); discriminate Herr |].
           intros [(err & Herr) | [(c & err & [= <-] & Herr)
                                  | (c & o & [= <-] & Ho & Hfalse & _)]];
             try discriminate; congruence.
      * assert (Hrun :
          (status <-! get_prop connObj "status";
           if strict_eq_zero status then
             result <-! get_prop connObj "result"; Resolved result
           else
             message <-! get_prop connObj "message";
             stack <-! get_prop connObj "stack";
             Rejected (ThrownDeveloperError (DeveloperError.mk
               (JStr ("Unable to find connection:" +:+ alias_or_default alias))
               message stack)))
          = if strict_eq_zero (member connObj "status")
            then Resolved (member connObj "result")
            else Rejected (ThrownDeveloperError (DeveloperError.mk
                   (JStr ("Unable to find connection:" +:+ alias_or_default alias))
                   (member connObj "message") (member connObj "stack"))))
          by (destruct connObj; try discriminate Hnull; reflexivity).
        rewrite Hrun.
        destruct (strict_eq_zero (member connObj "status")) eqn:Hstatus.
        -- apply Hzero in Hstatus. split; [| split].
           ++ intros result. split.
              ** intros [= <-]. exists conn, connObj. auto.
              ** intros (c & o & [= <-] & Ho & _ & _ & ->). congruence.
           ++ split; [discriminate |].
              intros [Hp | (c & o & [= <-] & Ho & Htrue)];
                [discriminate | congruence].
           ++ split; [intros (err & Herr); discriminate Herr |].
              intros [(err & Herr) | [(c & err & [= <-] & Herr)
                                     | (c & o & [= <-] & Ho & _ & Hne)]];
                try discriminate; congruence.
        -- assert (Hne : member connObj "status" <> JNum 0)
             by (intros Heq; apply Hzero in Heq; congruence).
           split; [| split].
           ++ intros result. split; [discriminate |].
              intros (c & o & [= <-] & Ho & _ & Heq & _). congruence.
           ++ split; [discriminate |].
              intros [Hp | (c & o & [= <-] & Ho & Htrue)];
                [discriminate | congruence].
           ++ split; [| eauto]. intros _. right. right.
              exists conn, connObj. auto.
    + split; [| split].
      * intros result. split; [discriminate |].
        intros (c & o & [= <-] & Ho & _). congruence.
      * split; [discriminate |].
        intros [Hp | (c & o & [= <-] & Ho & _)]; [discriminate | congruence].
      * split; [| eauto]. intros _. right. left. eauto.
  - split; [| split].
    + intros result. split; [discriminate |].
      intros (c & o & Hc & _). discriminate Hc.
    + split; [discriminate |].
      intros [Hp | (c & o & Hc & _)]; discriminate.
    + split; [| eauto]. intros _. left. eauto.
  - split; [| split].
    + intros result. split; [discriminate |].
      intros (c & o & Hc & _). discriminate Hc.
    + split; [auto |]. reflexivity.
    + split; [intros (err & Herr); discriminate Herr |].
      intros [(err & Herr) | [(c & err & Hc & _) | (c & o & Hc & _)]];
        discriminate.
Qed.

End Responses.

(** ** DeveloperError.log *)

(** X10. [log] writes at most one line, always through [logger.error]
    and always with the client message first: no line below level zero,
    the message alone at level zero, the message with the detail and the
    stack above it. *)
Theorem log_one_line (d : DeveloperError.t) (traceLevel : Z) :
  (DeveloperError.log d traceLevel = [] <-> traceLevel <= ERROR_LEVEL_NONE)
  /\ (ERROR_LEVEL_NONE < traceLevel ->
      exists fmt more,
        DeveloperError.log d traceLevel
        = [logger_error fmt (DeveloperError.message d :: more)]
        /\ (more = [] <-> traceLevel = ERROR_LEVEL_BASIC)
        /\ (more = [DeveloperError.detailMessage d; DeveloperError.stack d]
            <-> ERROR_LEVEL_BASIC < traceLevel)).
Proof.
  unfold ERROR_LEVEL_NONE, ERROR_LEVEL_BASIC. split.
  - split; [| now apply log_silent].
    unfold DeveloperError.log, ERROR_LEVEL_NONE, ERROR_LEVEL_BASIC.
    destruct (Z.ltb_spec (-1) traceLevel); [| lia].
    destruct (Z.eqb_spec traceLevel 0); [discriminate |].
    destruct (Z.ltb_spec 0 traceLevel); [discriminate | lia].
  - intros Hloud. destruct (Z.eq_dec traceLevel 0) as [-> | Hne].
    + exists "Error occurred:%s", []. split; [reflexivity |].
      split; split; try reflexivity; try discriminate; lia.
    + exists ("Error occurred:%s " +:+ nl +:+ " %s " +:+ nl +:+ " %o"),
        [DeveloperError.detailMessage d; DeveloperError.stack d].
      split; [apply log_detail; unfold ERROR_LEVEL_BASIC; lia |].
      split; split; try reflexivity; try discriminate; lia.
Qed.

(** ** setOptions *)

Lemma trim_start_white (w s : string) :
  ws_only w = true -> trim_start (w +:+ s) = trim_start s.
Proof.
  induction w as [| c w IH]; intros Hw; [now rewrite append_empty_l |].
  cbn [ws_only] in Hw. apply andb_prop in Hw as [Hc Hw].
  rewrite append_cons. cbn [trim_start].
  assert (Hwhite : white_space1 (nat_of_ascii c) = true)
    by (destruct c as [[] [] [] [] [] [] [] []];
        first [discriminate Hc | reflexivity]).
  rewrite Hwhite. now apply IH.
Qed.

Lemma trim_start_number (c : ascii) (t : string) :
  number_start c = true -> trim_start (String c t) = String c t.
Proof.
  intros Hc.
  destruct c as [[] [] [] [] [] [] [] []]; try discriminate Hc;
    destruct t as [| c1 [| c2 t]]; reflexivity.
Qed.

Lemma digits_head_plain (d : Decimal.uint) (rest : string) :
  d <> Decimal.Nil ->
  exists c t,
    NilEmpty.string_of_uint d +:+ rest = String c t
    /\ number_start c = true
    /\ Ascii.eqb c "-" = false /\ Ascii.eqb c "+" = false.
Proof.
  intros Hd. destruct d; try contradiction;
    cbn [NilEmpty.string_of_uint]; rewrite append_cons; eauto 7.
Qed.

Lemma parse_digits_show (negative : bool) (d : Decimal.uint) (rest : string) :
  d <> Decimal.Nil -> digit_head rest = false ->
  parse_digits negative (NilEmpty.string_of_uint d +:+ rest)
  = Some (Z.of_int (if negative then Decimal.Neg d else Decimal.Pos d)).
Proof.
  intros Hd Hrest. unfold parse_digits.
  rewrite read_digits_show by assumption. cbn [fst].
  destruct d; try contradiction; reflexivity.
Qed.

Lemma parseInt_show (w : string) (n : Z) (rest : string) :
  ws_only w = true -> digit_head rest = false ->
  parseInt (w +:+ show_number n +:+ rest) = Some n.
Proof.
  intros Hw Hrest. unfold parseInt. rewrite trim_start_white by assumption.
  unfold show_number.
  destruct n as [| p | p]; cbn [Z.to_int NilEmpty.string_of_int].
  - change (NilEmpty.string_of_uint (Decimal.D0 Decimal.Nil) +:+ rest)
      with (String "0" rest).
    rewrite trim_start_number by reflexivity. cbn [Ascii.eqb Bool.eqb].
    change (String "0" rest)
      with (NilEmpty.string_of_uint (Decimal.D0 Decimal.Nil) +:+ rest).
    now rewrite parse_digits_show by (try discriminate; auto).
  - destruct (digits_head_plain (Pos.to_uint p) rest (Unsigned.to_uint_nonnil p))
      as (c & t & Heq & Hc & Hminus & Hplus).
    rewrite Heq, trim_start_number, Hminus, Hplus, <- Heq by assumption.
    rewrite parse_digits_show by (auto using Unsigned.to_uint_nonnil).
    f_equal. exact (DecimalZ.of_to (Zpos p)).
  - rewrite append_cons, trim_start_number by reflexivity.
    cbn [Ascii.eqb Bool.eqb].
    rewrite parse_digits_show by (auto using Unsigned.to_uint_nonnil).
    f_equal. exact (DecimalZ.of_to (Zneg p)).
Qed.

(** X11. The level written in [TRACE_LEVEL] is the level taken: for a
    safe integer [n], its decimal text (behind any blanks, before any text
    that does not go on with a digit) makes [n] the trace level of a new
    connector and of [setOptions] without a [traceLevel] option; for an
    integer that is not safe the level is the basic one. *)
Theorem setOptions_reads_environment (w : string) (n : Z) (rest : string) :
  ws_only w = true -> digit_head rest = false ->
  let TRACE_LEVEL := Some (w +:+ show_number n +:+ rest) in
  constructor TRACE_LEVEL = setOptions TRACE_LEVEL None
  /\ (Z.abs n <= MAX_SAFE_INTEGER -> setOptions TRACE_LEVEL None = n)
  /\ (MAX_SAFE_INTEGER < Z.abs n -> setOptions TRACE_LEVEL None = ERROR_LEVEL_BASIC).
Proof.
  intros Hw Hrest TRACE_LEVEL. split; [reflexivity |].
  unfold TRACE_LEVEL, setOptions. rewrite parseInt_show by assumption.
  unfold isSafeInteger.
  destruct (Z.leb_spec (Z.abs n) MAX_SAFE_INTEGER); split; intros; try lia;
    reflexivity.
Qed.

Lemma trim_start_ascii (c : ascii) (rest : string) :
  (nat_of_ascii c < 128)%nat -> white_space1 (nat_of_ascii c) = false ->
  trim_start (String c rest) = String c rest.
Proof.
  intros Hascii Hblack.
  destruct c as [b0 b1 b2 b3 b4 b5 b6 [|]];
    [exfalso; revert Hascii; destruct b0, b1, b2, b3, b4, b5, b6; cbv; lia |].
  destruct b0, b1, b2, b3, b4, b5, b6; try discriminate Hblack;
    destruct rest as [| c1 [| c2 rest]]; reflexivity.
Qed.

(** X12. What [setOptions] leaves as the trace level.  A [traceLevel]
    option is taken as it is, whatever the environment says.  Without one
    the level is a safe integer in every case, and it is the basic level
    when [TRACE_LEVEL] is not set, when it is blank, and when it begins
    with an ASCII character that is no blank, no sign and no digit. *)
Theorem setOptions_level (TRACE_LEVEL : option string) :
  (forall traceLevel, setOptions TRACE_LEVEL (Some traceLevel) = traceLevel)
  /\ isSafeInteger (setOptions TRACE_LEVEL None) = true
  /\ setOptions None None = ERROR_LEVEL_BASIC
  /\ (forall w, ws_only w = true -> setOptions (Some w) None = ERROR_LEVEL_BASIC)
  /\ (forall c rest,
        (nat_of_ascii c < 128)%nat -> white_space1 (nat_of_ascii c) = false ->
        number_start c = false -> Ascii.eqb c "+" = false ->
        setOptions (Some (String c rest)) None = ERROR_LEVEL_BASIC).
Proof.
  split; [reflexivity |].
  split.
  { unfold setOptions. destruct TRACE_LEVEL as [text |]; [| reflexivity].
    destruct (parseInt text) as [n |]; [| reflexivity].
    destruct (isSafeInteger n) eqn:Hsafe; [exact Hsafe | reflexivity]. }
  split; [reflexivity |].
  split.
  - intros w Hw. unfold setOptions, parseInt.
    rewrite <- (append_empty_r w), trim_start_white by assumption.
    reflexivity.
  - intros c rest Hascii Hblack Hstart Hplus. unfold setOptions, parseInt.
    rewrite trim_start_ascii by assumption.
    unfold number_start in Hstart.
    destruct (digit_of c) eqn:Hdigit; [discriminate |].
    rewrite Hstart, Hplus. unfold parse_digits. cbn [read_digits].
    now rewrite Hdigit.
Qed.

(** ** listFiles *)

Section Listing.
Context {H : Host}.

(** X13. [listFiles] raises an exception to its caller exactly when the
    path exists and [fs.ensureDirSync] throws on it, and the exception is
    that one; it logs that the path is not a directory exactly when the
    path exists and [fs.ensureDirSync] returns a truthy value, that is,
    when it had to create the directory. *)
Theorem listFiles_raises (traceLevel : Z) (fs : FS) (directoryPath : string) :
  let resolvedPath := path_resolve directoryPath in
  (forall e,
     fst (fst (listFiles traceLevel fs directoryPath)) = Throw e
     <-> fs_existsSync fs resolvedPath = true
         /\ fst (fs_ensureDirSync fs resolvedPath) = Throw e)
  /\ (In (logger_error ("Path is not a directory:" +:+ resolvedPath) [])
         (snd (fst (listFiles traceLevel fs directoryPath)))
      <-> fs_existsSync fs resolvedPath = true
          /\ exists made,
               fst (fs_ensureDirSync fs resolvedPath) = Return made
               /\ truthy made = true).
Proof.
  intros resolvedPath. unfold listFiles. fold resolvedPath.
  assert (Hformat : forall (d : DeveloperError.t),
            ~ In (logger_error ("Path is not a directory:" +:+ resolvedPath) [])
                 (DeveloperError.log d traceLevel)).
  { intros d. unfold DeveloperError.log.
    destruct (ERROR_LEVEL_NONE <? traceLevel); [| intros []].
    destruct (traceLevel =? ERROR_LEVEL_BASIC);
      [intros [Heq | []]; discriminate Heq |].
    destruct (ERROR_LEVEL_BASIC <? traceLevel); [| intros []].
    intros [Heq | []]; discriminate Heq. }
  destruct (fs_existsSync fs resolvedPath); cbn [negb].
  - destruct (fs_ensureDirSync fs resolvedPath) as [[made | e'] fs'];
      cbn [fst snd].
    + destruct (truthy made) eqn:Hmade; cbn [fst snd].
      * split.
        -- intros e. split; [discriminate |]. intros [_ He]. discriminate He.
        -- split; [eauto |]. intros _. now left.
      * destruct (fs_readdirSync fs' resolvedPath) as [results | err];
          cbn [fst snd].
        -- split.
           ++ intros e. split; [discriminate |]. intros [_ He]. discriminate He.
           ++ split; [intros [] |].
              intros [_ (made' & [= <-] & Htrue)]. congruence.
        -- split.
           ++ intros e. split; [discriminate |]. intros [_ He]. discriminate He.
           ++ split; [intros Hin; now apply Hformat in Hin |].
              intros [_ (made' & [= <-] & Htrue)]. congruence.
    + split.
      * intros e. split; [intros [= ->]; auto |]. now intros [_ [= ->]].
      * split; [intros [] |]. intros [_ (made & Hmade & _)]. discriminate Hmade.
  - cbn [fst snd]. split.
    + intros e. split; [discriminate |]. intros [Hfalse _]. discriminate Hfalse.
    + split.
      * intros [Heq | []]. discriminate Heq.
      * intros [Hfalse _]. discriminate Hfalse.
Qed.

End Listing.

(** X14. On the reference file tree [listFiles] has three outcomes, and
    leaves the tree as it was in each: at a missing path, one error line
    and [undefined]; at a directory, the names in it and no line; at a
    regular file, the [EEXIST] of [fs.ensureDirSync] raised to the caller.
    The line telling that the path is not a directory is never written. *)
Theorem listFiles_by_entry (cwd : string)
    (spawn : string -> list string -> list ProcEvent)
    (traceLevel : Z) (disk : gmap string Entry) (directoryPath : string) :
  let resolvedPath := resolve cwd directoryPath in
  match entry_at disk resolvedPath with
  | None =>
      @listFiles (reference_host cwd spawn) traceLevel disk directoryPath
      = (Return JUndefined,
         [logger_error "Path does not exist: %s" [JStr resolvedPath]], disk)
  | Some Directory =>
      exists names,
        readdirSync cwd disk directoryPath = Return names
        /\ @listFiles (reference_host cwd spawn) traceLevel disk directoryPath
           = (Return (JArr (map JStr names)), [], disk)
  | Some (RegularFile _) =>
      @listFiles (reference_host cwd spawn) traceLevel disk directoryPath
      = (Throw (EEXIST "mkdir" resolvedPath), [], disk)
  end.
Proof.
  intros resolvedPath.
  assert (Hagain : resolve cwd resolvedPath = resolvedPath)
    by apply resolve_idempotent.
  assert (Hsegments : canonical cwd resolvedPath = canonical cwd directoryPath)
    by apply canonical_resolve.
  assert (Hrendered : absolute (canonical cwd directoryPath) = resolvedPath)
    by reflexivity.
  unfold listFiles.
  cbn [path_resolve fs_existsSync fs_ensureDirSync fs_readdirSync reference_host].
  fold resolvedPath. unfold existsSync, ensureDirSync, readdirSync.
  rewrite Hagain, Hsegments, !Hrendered.
  destruct (entry_at disk resolvedPath) as [[content |] |] eqn:Hentry;
    cbn [negb truthy]; try reflexivity.
  rewrite Hentry. eauto.
Qed.

(** ** writeFile, then readFile *)

(** X15. On the reference file tree, after a write that succeeded
    [readFile] of the same path returns the text handed to
    [fs.writeFileSync], which is [JSON.stringify(contents, null, 2)], and
    logs nothing; it does not return the contents: for a string, what
    comes back is never the string that was written. *)
Theorem writeFile_then_readFile (cwd : string)
    (spawn : string -> list string -> list ProcEvent)
    (traceLevel traceLevel' : Z) (disk disk' : gmap string Entry)
    (filePath : string) (contents : JValue) :
  writeFileSync cwd disk filePath (JSON_stringify contents) = (Return tt, disk') ->
  snd (@writeFile (reference_host cwd spawn) traceLevel disk filePath contents)
  = disk'
  /\ @readFile (reference_host cwd spawn) traceLevel' disk' filePath
     = (Return (JSON_stringify contents), [])
  /\ (forall s,
        contents = JStr s ->
        fst (@readFile (reference_host cwd spawn) traceLevel' disk' filePath)
        <> Return (JStr s)).
Proof.
  intros Hwrite.
  assert (Hread : @readFile (reference_host cwd spawn) traceLevel' disk' filePath
                  = (Return (JSON_stringify contents), [])).
  { destruct (writeFileSync_done _ _ _ _ _ Hwrite) as (text & Hdata & -> & Hroot).
    destruct (readFileSync_written cwd disk filePath text Hroot)
      as (Hexists & _ & Hread).
    unfold readFile.
    cbn [fs_existsSync fs_readFileSync path_resolve reference_host].
    now rewrite Hexists, Hread, Hdata. }
  split; [| split].
  - unfold writeFile. cbn [fs_writeFileSync reference_host]. now rewrite Hwrite.
  - exact Hread.
  - intros s ->. rewrite Hread. cbn [fst]. intros [= Heq].
    now apply QuoteJSONString_longer in Heq.
Qed.

(** ** Instances of the further properties *)

Lemma pending_without_close_witness :
  @getConnection
    (reference_host "/repl" (fun _ _ => [StdoutData "{"; ProcError spawn_ENOENT]))
    1 None
  = (Pending, []).
Proof.
  exact (proj2 (proj2 (@pending_without_close
           (reference_host "/repl"
              (fun _ _ => [StdoutData "{"; ProcError spawn_ENOENT])) None)
           eq_refl 1)).
Defined.

Lemma getOrgDetail_merges_streams_witness :
  @getOrgDetail
    (reference_host "/repl"
       (fun _ _ => [StdoutData "{"; StderrData "warn"; StdoutClose (JNum 0);
                    StdoutData "}"]))
    None
  = Resolved "{warn".
Proof.
  exact (@getOrgDetail_merges_streams
           (reference_host "/repl"
              (fun _ _ => [StdoutData "{"; StderrData "warn"; StdoutClose (JNum 0);
                           StdoutData "}"]))
           None [StdoutData "{"; StderrData "warn"] [StdoutData "}"] (JNum 0)
           eq_refl eq_refl).
Defined.


Lemma getConnection_silent_witness :
  snd (@getConnection demo_host (-1) (Some "gone")) = [].
Proof.
  exact (@getConnection_silent demo_host (-1) (Some "gone") (Z.le_refl (-1))).
Defined.

Lemma basic_level_log_witness :
  snd (@getConnection demo_host 0 (Some "gone"))
  = [logger_error "Error occurred:%s" [JStr "Unable to find connection:gone"]].
Proof.
  exact (proj2 (proj2 (@basic_level_log demo_host (Some "gone"))) _ _ eq_refl).
Defined.

Lemma missing_result_yields_null_witness :
  @getConnection
    (reference_host "/repl"
       (fun _ _ => [StdoutData (json_text "{'status':0}"); StdoutClose JUndefined]))
    0 None
  = (Resolved None,
     [logger_error "Error occurred:%s"
        [JStr "Cannot read property 'instanceUrl' of undefined"]]).
Proof.
  exact (proj2 (@missing_result_yields_null
           (reference_host "/repl"
              (fun _ _ => [StdoutData (json_text "{'status':0}");
                           StdoutClose JUndefined]))
           0 None (json_text "{'status':0}") [("status", JNum 0)]
           eq_refl eq_refl eq_refl eq_refl)).
Defined.


Lemma getConnectionDetail_outcomes_witness :
  exists err, fst (@getConnectionDetail demo_host 0 (Some "gone")) = Rejected err.
Proof.
  apply (proj2 (proj2 (@getConnectionDetail_outcomes demo_host 0 (Some "gone")))).
  right. right. exists response_failed. eexists.
  split; [reflexivity |]. split; [reflexivity |].
  split; [reflexivity | discriminate].
Defined.

Lemma log_one_line_witness :
  exists fmt more,
    DeveloperError.log
      (DeveloperError.mk (JStr "Unable to find connection:gone")
         (JStr "no such org") (JStr "...")) 2
    = [logger_error fmt (JStr "Unable to find connection:gone" :: more)]
    /\ (more = [] <-> 2 = ERROR_LEVEL_BASIC)
    /\ (more = [JStr "no such org"; JStr "..."] <-> ERROR_LEVEL_BASIC < 2).
Proof.
  exact (proj2 (log_one_line
           (DeveloperError.mk (JStr "Unable to find connection:gone")
              (JStr "no such org") (JStr "...")) 2) eq_refl).
Defined.

Lemma setOptions_reads_environment_witness :
  setOptions (Some (" " +:+ show_number (-1) +:+ "px")) None = -1.
Proof.
  apply (proj1 (proj2 (setOptions_reads_environment " " (-1) "px" eq_refl eq_refl))).
  vm_compute. discriminate.
Defined.

Lemma setOptions_level_witness :
  setOptions (Some "verbose") None = ERROR_LEVEL_BASIC.
Proof.
  apply (proj2 (proj2 (proj2 (proj2 (setOptions_level None)))) "v"%char "erbose");
    [cbv; lia | reflexivity | reflexivity | reflexivity].
Defined.

Lemma listFiles_raises_witness :
  fst (fst (@listFiles demo_host 0 demo_disk "notes.txt"))
  = Throw (EEXIST "mkdir" "/repl/notes.txt").
Proof.
  apply (proj1 (@listFiles_raises demo_host 0 demo_disk "notes.txt")).
  split; reflexivity.
Defined.

Lemma writeFile_then_readFile_witness :
  @readFile demo_host 0
    (<["/repl/out.txt" := RegularFile (String dquote ("plain" +:+ String dquote ""))]>
       demo_disk)
    "out.txt"
  = (Return (JSON_stringify (JStr "plain")), []).
Proof.
  exact (proj1 (proj2 (writeFile_then_readFile "/repl" demo_spawn 0 0 demo_disk _
                         "out.txt" (JStr "plain") eq_refl))).
Defined.
